(** * Conversational AI Builder: the Express backend (server/index.js)

    A shallow embedding of the backend's route handlers and of the
    middleware chain they are registered in, with the properties of the
    request/response lifecycle and of the audio-file lifecycle.

    Conventions of the model.
    - A JavaScript string is its sequence of UTF-16 code units.
    - The file system is a finite map from the paths the handlers use
      (names relative to the audio directory) to files and directories; a
      route handler is an atomic transition on it.
    - The OpenAI client, the clock and the process environment are inputs
      of a handler (record [runtime]); every call to the provider is
      appended to the log of the world.
    - Third-party middleware (cors, express.json, express.static) and
      Express's path matcher are parameters of the application. *)

From Stdlib Require Import ZArith List Ascii String DecimalString SpecFloat QArith.
From Stdlib Require DecimalPos DecimalZ.
From stdpp Require Import gmap list option sorting.

Open Scope Z_scope.

(* ===================================================================== *)
(** ** JavaScript strings *)
(* ===================================================================== *)

Module JsString.

(** A code unit is a number below 2^16; a string is a list of them. *)
Definition code_unit := N.
Definition t := list code_unit.

(** An ASCII literal of the source, as code units. *)
Definition lit (s : string) : t :=
  map N_of_ascii (list_ascii_of_string s).

(** ECMAScript WhiteSpace and LineTerminator code points, the ones
    [String.prototype.trim] strips. *)
Definition is_white_space (c : code_unit) : bool :=
  ((9 <=? c) && (c <=? 13))%N            (* TAB LF VT FF CR *)
  || (c =? 32)%N                         (* SPACE *)
  || (c =? 160)%N                        (* NBSP *)
  || (c =? 5760)%N                       (* OGHAM SPACE MARK *)
  || ((8192 <=? c) && (c <=? 8202))%N    (* EN QUAD .. HAIR SPACE *)
  || (c =? 8232)%N || (c =? 8233)%N      (* LS PS *)
  || (c =? 8239)%N                       (* NARROW NBSP *)
  || (c =? 8287)%N                       (* MEDIUM MATHEMATICAL SPACE *)
  || (c =? 12288)%N                      (* IDEOGRAPHIC SPACE *)
  || (c =? 65279)%N.                     (* ZWNBSP / BOM *)

Fixpoint trimStart (s : t) : t :=
  match s with
  | c :: s' => if is_white_space c then trimStart s' else s
  | [] => []
  end.

Definition trimEnd (s : t) : t := rev (trimStart (rev s)).

(** [s.trim()] *)
Definition trim (s : t) : t := trimEnd (trimStart s).

(** [s.length] *)
Definition length (s : t) : Z := Z.of_nat (List.length s).

(** [String(n)] / [`${n}`] for an integral number below 10^21, which
    every time value is (their magnitude is at most 8.64e15). *)
Definition of_int (n : Z) : t := lit (NilZero.string_of_int (Z.to_int n)).

Definition is_digit (c : code_unit) : bool := ((48 <=? c) && (c <=? 57))%N.

(** The order of strings by their code units, the one names are listed
    in. *)
Fixpoint leb (a b : t) : bool :=
  match a, b with
  | [], _ => true
  | _ :: _, [] => false
  | x :: a', y :: b' =>
      if (x <? y)%N then true
      else if (x =? y)%N then leb a' b'
      else false
  end.

End JsString.

Abbreviation jsstring := JsString.t.
Abbreviation lit := JsString.lit.


(* ===================================================================== *)
(** ** JavaScript values, exceptions *)
(* ===================================================================== *)

(** The values a parsed JSON body can hold, and [undefined] for a property
    that is absent. A number is an IEEE 754 double. *)
#[warnings="-register-all"]
Inductive jsvalue :=
| VUndefined
| VNull
| VBool (b : bool)
| VNum (x : spec_float)
| VStr (s : jsstring)
| VArr (items : list jsvalue)
| VObj (fields : list (jsstring * jsvalue)).

(** ToBoolean: [undefined], [null], [false], [0], [-0], [NaN] and the
    empty string are falsy, every other value is truthy. *)
Definition truthy (v : jsvalue) : bool :=
  match v with
  | VUndefined | VNull => false
  | VBool b => b
  | VNum (S754_zero _) | VNum S754_nan => false
  | VNum _ => true
  | VStr s => negb (bool_decide (s = []))
  | VArr _ | VObj _ => true
  end.

(** [v === 'literal'] *)
Definition strict_eq_string (v : jsvalue) (s : jsstring) : bool :=
  match v with
  | VStr s' => bool_decide (s' = s)
  | _ => false
  end.

(** A thrown error object, with the two properties the handlers read. *)
Record error := { code : jsvalue; message : jsvalue }.

Definition TypeError (msg : string) : error :=
  {| code := VUndefined; message := VStr (lit msg) |}.

(** A Node.js system error of the [fs] module. *)
Definition SystemError (errno : string) (msg : string) : error :=
  {| code := VStr (lit errno); message := VStr (lit msg) |}.

Inductive outcome (A : Type) :=
| Ok (a : A)
| Throw (e : error).
Arguments Ok {A} a.
Arguments Throw {A} e.

(* ===================================================================== *)
(** ** The world: the audio directory and the provider *)
(* ===================================================================== *)

Inductive entry_kind :=
| File (content : list Byte.byte)
| Directory.

(** A directory entry; [mtime] is [stats.mtime.getTime()]. *)
Record entry := { mtime : Z; kind : entry_kind }.

Definition is_directory (e : entry) : bool :=
  match kind e with Directory => true | File _ => false end.

Record chat_message := { role : jsstring; content : jsvalue }.

Record chat_params := {
  chat_model : jsstring;
  messages : list chat_message;
  max_tokens : Z;
  temperature : Q }.

Record speech_params := {
  speech_model : jsstring;
  voice : jsstring;
  input : option jsstring;      (* the content of a message: string | null *)
  speed : Q }.

(** [choices[i].message.content] is a string or [null]. *)
Record choice := { message_content : option jsstring }.
Record chat_completion := { choices : list choice }.
Record speech_response := { arrayBuffer : outcome (list Byte.byte) }.

(** The OpenAI client: what each request to the provider answers. *)
Record openai_client := {
  chat_completions_create : chat_params -> outcome chat_completion;
  audio_speech_create : speech_params -> outcome speech_response }.

(** A request sent to the provider. *)
Inductive call :=
| ChatCompletionsCreate (p : chat_params)
| AudioSpeechCreate (p : speech_params).

(** [disk] is the file system as the handlers see it: what each path,
    written relative to the audio directory, names. [calls] is the log of
    the requests made to the provider, oldest first. *)
Record world := {
  disk : gmap jsstring entry;
  calls : list call }.

(** [path.join(audioDir, name)] names an entry of the audio directory
    when [name] is a single path component other than [.] and [..]
    (POSIX paths); any other name leads out of the directory or to the
    directory itself. *)
Definition is_entry_name (name : jsstring) : bool :=
  negb (bool_decide (name = []))
  && forallb (fun c => negb (c =? 47)%N) name       (* no [/] *)
  && negb (bool_decide (name = lit "."))
  && negb (bool_decide (name = lit "..")).

Definition name_le (a b : jsstring) : Prop := JsString.leb a b = true.

#[global] Instance name_le_dec : RelDecision name_le :=
  fun a b => bool_eq_dec (JsString.leb a b) true.

(** The entries of the audio directory as the system lists them, sorted by
    name. *)
Definition entries (m : gmap jsstring entry) : list jsstring :=
  merge_sort name_le
             (filter (fun name => is_entry_name name = true) (map_to_list m).*1).

(** What a handler gets from the process it runs in. [clock k] is the
    k-th reading of the system clock during the handling of the request. *)
Record runtime := {
  NODE_ENV : option jsstring;
  OPENAI_API_KEY : option jsstring;
  process_version : jsstring;
  dirname : jsstring;
  openai : openai_client;
  clock : nat -> Z }.

(* ===================================================================== *)
(** ** Handlers as state transformers that may throw *)
(* ===================================================================== *)

Definition M (A : Type) : Type := world -> outcome A * world.

Definition ret {A} (a : A) : M A := fun w => (Ok a, w).
Definition throw {A} (e : error) : M A := fun w => (Throw e, w).
Definition bind {A B} (m : M A) (k : A -> M B) : M B :=
  fun w => match m w with
           | (Ok a, w') => k a w'
           | (Throw e, w') => (Throw e, w')
           end.
(** [try { m } catch (error) { h error }]: the state reached when the
    exception was thrown is the one the catch block starts in. *)
Definition try_catch {A} (m : M A) (h : error -> M A) : M A :=
  fun w => match m w with
           | (Ok a, w') => (Ok a, w')
           | (Throw e, w') => h e w'
           end.
Definition lift {A} (o : outcome A) : M A := fun w => (o, w).

Notation "x <- m ;; k" := (bind m (fun x => k))
  (at level 100, m at next level, right associativity).
Notation "m ;;; k" := (bind m (fun _ => k))
  (at level 100, right associativity).

(** *** The [fs] module, on paths relative to the audio directory *)

(** [fs.existsSync(path.join(audioDir, name))] *)
Definition existsSync (name : jsstring) : M bool :=
  fun w => (Ok (bool_decide (is_Some (disk w !! name))), w).

(** [fs.readdirSync(audioDir)] *)
Definition readdirSync : M (list jsstring) :=
  fun w => (Ok (entries (disk w)), w).

(** [fs.statSync(path.join(audioDir, name))] *)
Definition statSync (name : jsstring) : M entry :=
  fun w => match disk w !! name with
           | Some e => (Ok e, w)
           | None => (Throw (SystemError "ENOENT" "no such file or directory"), w)
           end.

(** [fs.unlinkSync(path.join(audioDir, name))]: unlink(2) removes a file
    and refuses a directory. *)
Definition unlinkSync (name : jsstring) : M unit :=
  fun w => match disk w !! name with
           | Some e =>
               if is_directory e
               then (Throw (SystemError "EISDIR" "illegal operation on a directory"), w)
               else (Ok tt, {| disk := delete name (disk w); calls := calls w |})
           | None => (Throw (SystemError "ENOENT" "no such file or directory"), w)
           end.

(** [fs.writeFileSync(path.join(audioDir, name), buffer)] at time [t]:
    creates or replaces a file, and refuses a directory. *)
Definition writeFileSync (name : jsstring) (buffer : list Byte.byte) (t : Z) : M unit :=
  fun w => match disk w !! name with
           | Some e =>
               if is_directory e
               then (Throw (SystemError "EISDIR" "illegal operation on a directory"), w)
               else (Ok tt, {| disk := <[name := {| mtime := t; kind := File buffer |}]> (disk w);
                               calls := calls w |})
           | None => (Ok tt, {| disk := <[name := {| mtime := t; kind := File buffer |}]> (disk w);
                               calls := calls w |})
           end.

(** *** The provider, logged *)

Definition openai_chat_completions_create (rt : runtime) (p : chat_params)
  : M chat_completion :=
  fun w => (chat_completions_create (openai rt) p,
            {| disk := disk w; calls := calls w ++ [ChatCompletionsCreate p] |}).

Definition openai_audio_speech_create (rt : runtime) (p : speech_params)
  : M speech_response :=
  fun w => (audio_speech_create (openai rt) p,
            {| disk := disk w; calls := calls w ++ [AudioSpeechCreate p] |}).

(* ===================================================================== *)
(** ** Responses *)
(* ===================================================================== *)

Record chat_response := {
  success : bool;
  textResponse : jsstring;
  audioUrl : jsstring;
  audioFileName : jsstring;
  timestamp : Z;          (* the time value of the Date sent as ISO string *)
  promptLength : Z;
  responseLength : Z }.

(** The payloads of the routes. A property whose value is [undefined] is
    left out by [res.json]; it is [None] here. *)
Inductive payload :=
| HealthBody (status : jsstring) (time : Z) (version : jsstring)
| ChatBody (r : chat_response)
| ErrorBody (err : jsstring) (type : option jsstring) (details : option jsvalue)
| CleanupBody (msg : jsstring) (deletedCount : Z)
| ConfigBody (nodeVersion environment : jsstring) (hasOpenAIKey : bool)
             (audioDirectory : jsstring) (serverTime : Z)
| NotFoundBody (err : jsstring) (availableEndpoints : list jsstring)
| Piped (stream : outcome (list Byte.byte)).

(** [headers] are the ones the handler sets itself with [res.setHeader]. *)
Record response := {
  status : Z;
  headers : list (jsstring * jsstring);
  body : payload }.

(** [res.status(code).json(payload)]; [res.json(payload)] is status 200. *)
Definition json (code : Z) (p : payload) : response :=
  {| status := code; headers := []; body := p |}.

(** The value of a property as [JSON.stringify] keeps it. *)
Definition json_property (v : jsvalue) : option jsvalue :=
  match v with
  | VUndefined => None
  | _ => Some v
  end.

(* ===================================================================== *)
(** ** POST /api/chat *)
(* ===================================================================== *)

(** [req.body], destructured: an absent property is [undefined]. *)
Record chat_request := { prompt : jsvalue; systemMessage : jsvalue }.

Definition personality : jsstring :=
  lit "You are a helpful, friendly, and conversational AI assistant. "
  ++ lit "Provide clear, concise, and engaging responses. "
  ++ lit "Keep your responses conversational and natural, as if speaking to a friend.".

(** [!prompt || prompt.trim() === ''], evaluated left to right: [None]
    when the test holds, the prompt (then known to be a string) when it
    does not. Only a string has a [trim] method. *)
Definition validate (prompt : jsvalue) : outcome (option jsstring) :=
  if negb (truthy prompt) then Ok None
  else match prompt with
       | VStr s => if bool_decide (JsString.trim s = []) then Ok None else Ok (Some s)
       | _ => Throw (TypeError "prompt.trim is not a function")
       end.

(** [systemMessage || "You are ..."] *)
Definition defaultSystemMessage (systemMessage : jsvalue) : jsvalue :=
  if truthy systemMessage then systemMessage else VStr personality.

(** [chatCompletion.choices[0].message.content] *)
Definition first_content (c : chat_completion) : outcome (option jsstring) :=
  match choices c with
  | ch :: _ => Ok (message_content ch)
  | [] => Throw (TypeError "Cannot read properties of undefined (reading 'message')")
  end.

Definition audio_file_name (now : Z) : jsstring :=
  lit "response_" ++ JsString.of_int now ++ lit ".mp3".

Definition chat_params_of (system : jsvalue) (prompt : jsstring) : chat_params :=
  {| chat_model := lit "gpt-3.5-turbo";
     messages := [ {| role := lit "system"; content := system |};
                   {| role := lit "user"; content := VStr prompt |} ];
     max_tokens := 500;
     temperature := (7 # 10)%Q |}.

Definition speech_params_of (textResponse : option jsstring) : speech_params :=
  {| speech_model := lit "tts-1";
     voice := lit "alloy";
     input := textResponse;
     speed := (1 # 1)%Q |}.

(** The catch block of the chat route. *)
Definition chat_catch (rt : runtime) (e : error) : response :=
  if strict_eq_string (code e) (lit "insufficient_quota") then
    json 429 (ErrorBody (lit "OpenAI API quota exceeded. Please check your API limits.")
                        (Some (lit "quota_error")) None)
  else if strict_eq_string (code e) (lit "invalid_api_key") then
    json 401 (ErrorBody (lit "Invalid OpenAI API key. Please check your configuration.")
                        (Some (lit "auth_error")) None)
  else
    json 500 (ErrorBody (lit "Internal server error while processing your request")
                        (Some (lit "server_error"))
                        (if bool_decide (NODE_ENV rt = Some (lit "development"))
                         then json_property (message e) else None)).

(** The try block of the chat route. The clock is read for the file name
    (0), by the file system when the file is written (1) and for the
    timestamp of the response (2). *)
Definition chat_try (rt : runtime) (req : chat_request) : M response :=
  valid <- lift (validate (prompt req));;
  match valid with
  | None => ret (json 400 (ErrorBody (lit "Prompt is required and cannot be empty") None None))
  | Some prompt =>
      chatCompletion <-
        openai_chat_completions_create rt
          (chat_params_of (defaultSystemMessage (systemMessage req)) prompt);;
      textResponse <- lift (first_content chatCompletion);;
      speech <- openai_audio_speech_create rt (speech_params_of textResponse);;
      let audioFileName := audio_file_name (clock rt 0%nat) in
      buffer <- lift (arrayBuffer speech);;
      writeFileSync audioFileName buffer (clock rt 1%nat);;;
      let audioUrl := lit "/audio/" ++ audioFileName in
      match textResponse with
      | Some text =>
          ret (json 200 (ChatBody {|
            success := true;
            textResponse := text;
            audioUrl := audioUrl;
            audioFileName := audioFileName;
            timestamp := clock rt 2%nat;
            promptLength := JsString.length prompt;
            responseLength := JsString.length text |}))
      | None =>       (* [textResponse.length] on [null] *)
          throw (TypeError "Cannot read properties of null (reading 'length')")
      end
  end.

Definition chat (rt : runtime) (req : chat_request) : M response :=
  try_catch (chat_try rt req) (fun e => ret (chat_catch rt e)).

(* ===================================================================== *)
(** ** GET /audio/:filename *)
(* ===================================================================== *)

(** [fs.createReadStream(path.join(audioDir, name))]: the stream delivers
    the content of a file, and emits an error on anything else. *)
Definition createReadStream (name : jsstring) : M (outcome (list Byte.byte)) :=
  fun w => match disk w !! name with
           | Some {| kind := File content |} => (Ok (Ok content), w)
           | Some {| kind := Directory |} =>
               (Ok (Throw (SystemError "EISDIR" "illegal operation on a directory")), w)
           | None => (Ok (Throw (SystemError "ENOENT" "no such file or directory")), w)
           end.

(** The handler of the route. [audioStream.pipe(res)] sends the content of
    the file. An ['error'] of the stream has no listener: it is an uncaught
    exception, which ends the process before anything is sent; it is the
    [Throw] that leaves the handler. *)
Definition audio (filename : jsstring) : M response :=
  found <- existsSync filename;;
  if negb found then ret (json 404 (ErrorBody (lit "Audio file not found") None None))
  else
    audioStream <- createReadStream filename;;
    match audioStream with
    | Ok content =>
        ret {| status := 200;
               headers := [ (lit "Content-Type", lit "audio/mpeg");
                            (lit "Accept-Ranges", lit "bytes") ];
               body := Piped (Ok content) |}
    | Throw e => throw e
    end.

(* ===================================================================== *)
(** ** DELETE /api/cleanup *)
(* ===================================================================== *)

Definition oneHour : Z := 60 * 60 * 1000.

(** [now - stats.mtime.getTime() > oneHour] *)
Definition expired (now : Z) (stats : entry) : bool := now - mtime stats >? oneHour.

(** [files.forEach(file => { ... })], with the counter it increments. *)
Fixpoint forEach_file (now : Z) (files : list jsstring) (deletedCount : Z) : M Z :=
  match files with
  | [] => ret deletedCount
  | file :: rest =>
      stats <- statSync file;;
      if expired now stats
      then unlinkSync file;;; forEach_file now rest (deletedCount + 1)
      else forEach_file now rest deletedCount
  end.

Definition cleanup_try (rt : runtime) : M response :=
  files <- readdirSync;;
  let now := clock rt 0%nat in
  deletedCount <- forEach_file now files 0;;
  ret (json 200 (CleanupBody
                   (lit "Cleaned up " ++ JsString.of_int deletedCount ++ lit " old audio files")
                   deletedCount)).

Definition cleanup (rt : runtime) : M response :=
  try_catch (cleanup_try rt)
            (fun _ => ret (json 500 (ErrorBody (lit "Error cleaning up files") None None))).

(* ===================================================================== *)
(** ** GET /api/health, GET /api/config, the two fallback handlers *)
(* ===================================================================== *)

Definition health (rt : runtime) : M response :=
  ret (json 200 (HealthBody (lit "Server is running!") (clock rt 0%nat) (lit "1.0.0"))).

(** [path.join(__dirname, 'public', 'audio')] *)
Definition audioDirPath (rt : runtime) : jsstring := dirname rt ++ lit "/public/audio".

(** [process.env.X || fallback]: an unset or empty variable is falsy. *)
Definition env_or (x : option jsstring) (fallback : jsstring) : jsstring :=
  match x with
  | Some (c :: v) => c :: v
  | _ => fallback
  end.

Definition config (rt : runtime) : M response :=
  ret (json 200 (ConfigBody (process_version rt)
                            (env_or (NODE_ENV rt) (lit "development"))
                            (truthy (from_option VStr VUndefined (OPENAI_API_KEY rt)))
                            (audioDirPath rt)
                            (clock rt 0%nat))).

(** The error-handling middleware. *)
Definition unhandled_error (e : error) : response :=
  json 500 (ErrorBody (lit "Something went wrong!") (Some (lit "unhandled_error")) None).

Definition availableEndpoints : list jsstring :=
  [ lit "GET /api/health";
    lit "POST /api/chat";
    lit "GET /audio/:filename";
    lit "DELETE /api/cleanup";
    lit "GET /api/config" ].

(** The 404 handler, [app.use('*', ...)]. *)
Definition not_found : response :=
  json 404 (NotFoundBody (lit "Endpoint not found") availableEndpoints).

(* ===================================================================== *)
(** ** The application: middleware, then routes in registration order *)
(* ===================================================================== *)

Inductive method := GET | HEAD | POST | PUT | PATCH | DELETE | OPTIONS.

#[global] Instance method_eq_dec : EqDecision method.
Proof. solve_decision. Defined.

Record request := {
  req_method : method;
  req_path : jsstring;
  req_raw_body : list Byte.byte }.

Inductive endpoint := Health | Chat | Audio | Cleanup | Config.

(** [app.get], [app.post], [app.delete], in the order of the source. *)
Definition routes : list (method * jsstring * endpoint) :=
  [ (GET, lit "/api/health", Health);
    (POST, lit "/api/chat", Chat);
    (GET, lit "/audio/:filename", Audio);
    (DELETE, lit "/api/cleanup", Cleanup);
    (GET, lit "/api/config", Config) ].

(** A route registered with [app.get] also answers HEAD. *)
Definition method_matches (registered m : method) : bool :=
  bool_decide (registered = m) || (bool_decide (registered = GET) && bool_decide (m = HEAD)).

(** What a middleware does with a request. *)
Inductive passed (A : Type) :=
| Next (a : A)              (* [next()] *)
| NextError (e : error)     (* [next(err)] *)
| Respond (r : response).   (* the middleware ends the response itself *)
Arguments Next {A} a.
Arguments NextError {A} e.
Arguments Respond {A} r.

Section App.

(** Express and its middleware are not code of the repository. *)
Variable path_match : jsstring -> jsstring -> option (list (jsstring * jsstring)).
Variable cors_middleware : request -> passed unit.
Variable json_middleware : request -> passed chat_request.
Variable static_middleware : request -> world -> passed unit.

(** The first route that matches the method and the path. *)
Fixpoint find_route (table : list (method * jsstring * endpoint)) (req : request)
  : option (endpoint * list (jsstring * jsstring)) :=
  match table with
  | [] => None
  | (m, pattern, ep) :: table' =>
      if method_matches m (req_method req) then
        match path_match pattern (req_path req) with
        | Some params => Some (ep, params)
        | None => find_route table' req
        end
      else find_route table' req
  end.

(** [req.params[name]] *)
Fixpoint param (params : list (jsstring * jsstring)) (name : jsstring) : option jsstring :=
  match params with
  | [] => None
  | (k, v) :: params' => if bool_decide (k = name) then Some v else param params' name
  end.

Definition run (rt : runtime) (ep : endpoint) (params : list (jsstring * jsstring))
           (b : chat_request) : M response :=
  match ep with
  | Health => health rt
  | Chat => chat rt b
  | Audio =>
      match param params (lit "filename") with
      | Some filename => audio filename
      | None =>         (* [path.join(audioDir, undefined)] throws *)
          ret (unhandled_error
                 (TypeError "The path argument must be of type string. Received undefined"))
      end
  | Cleanup => cleanup rt
  | Config => config rt
  end.

Definition app (rt : runtime) (req : request) : M response :=
  fun w =>
    match cors_middleware req with
    | Respond r => (Ok r, w)
    | NextError e => (Ok (unhandled_error e), w)
    | Next _ =>
        match json_middleware req with
        | Respond r => (Ok r, w)
        | NextError e => (Ok (unhandled_error e), w)
        | Next b =>
            match static_middleware req w with
            | Respond r => (Ok r, w)
            | NextError e => (Ok (unhandled_error e), w)
            | Next _ =>
                match find_route routes req with
                | Some (ep, params) => run rt ep params b w
                | None => (Ok not_found, w)
                end
            end
        end
    end.

End App.

(* ===================================================================== *)
(** ** Reading a run of the chat route *)
(* ===================================================================== *)

(** The provider calls a handler added to the log. *)
Definition new_calls (w w' : world) : list call :=
  drop (List.length (calls w)) (calls w').

(** The content of the system message of a chat-completion request. *)
Definition system_content (p : chat_params) : option jsvalue :=
  content <$> head (filter (fun m => role m = lit "system") (messages p)).

(** The system message the chat route sends to the text-generation
    provider: the one of the first request it makes. *)
Definition effective_system_message (rt : runtime) (req : chat_request) (w : world)
  : option jsvalue :=
  match new_calls w (chat rt req w).2 with
  | ChatCompletionsCreate p :: _ => system_content p
  | _ => None
  end.

(** A prompt that is absent, empty or made of white space only. *)
Definition blank (v : jsvalue) : bool :=
  match v with
  | VUndefined | VNull => true
  | VStr s => forallb JsString.is_white_space s
  | _ => false
  end.

Definition is_string (v : jsvalue) : bool :=
  match v with VStr _ => true | _ => false end.

(** What the specification says of the system message: trimmed, and
    replaced by the default when nothing is left. *)
Definition spec_system_message (systemMessage : jsstring) : jsstring :=
  let trimmed := JsString.trim systemMessage in
  if bool_decide (trimmed = []) then personality else trimmed.

(** *** Fixtures: a provider that answers, a clock stuck in one millisecond *)

Definition answering : openai_client :=
  {| chat_completions_create := fun _ =>
       Ok {| choices := [ {| message_content := Some (lit "Hello there!") |} ] |};
     audio_speech_create := fun _ =>
       Ok {| arrayBuffer := Ok [Byte.x49; Byte.x44; Byte.x33] |} |}.

Definition failing (e : error) : openai_client :=
  {| chat_completions_create := fun _ => Throw e;
     audio_speech_create := fun _ => Throw e |}.

Definition runtime_with (env : option jsstring) (client : openai_client) (now : Z) : runtime :=
  {| NODE_ENV := env;
     OPENAI_API_KEY := None;
     process_version := lit "v18.0.0";
     dirname := lit "/srv/server";
     openai := client;
     clock := fun _ => now |}.

Definition empty_world : world := {| disk := ∅; calls := [] |}.

Definition say_hello : chat_request :=
  {| prompt := VStr (lit "Say hello"); systemMessage := VUndefined |}.

(** Whether the file or directory that [f] names is older than one hour. *)
Definition expired_in (now : Z) (m : gmap jsstring entry) (f : jsstring) : bool :=
  match m !! f with
  | Some e => expired now e
  | None => false
  end.

(** An entry of the audio directory that is older than one hour. *)
Definition stale (now : Z) (m : gmap jsstring entry) (f : jsstring) : bool :=
  is_entry_name f && expired_in now m f.

(** A directory with a fresh file and a stale one, and the same with a
    stale sub-directory besides. *)
Definition two_files : gmap jsstring entry :=
  <[lit "old.mp3" := {| mtime := 0; kind := File [Byte.x49] |}]>
  (<[lit "new.mp3" := {| mtime := 1699999999000; kind := File [Byte.x44] |}]> ∅).

Definition two_files_and_a_directory : gmap jsstring entry :=
  <[lit "archive" := {| mtime := 0; kind := Directory |}]> two_files.

(** The same, with a stale sub-directory that is listed last. *)
Definition two_files_then_a_directory : gmap jsstring entry :=
  <[lit "tmp" := {| mtime := 0; kind := Directory |}]> two_files.


(** Fixtures: middleware that lets every request through, and a matcher
    that takes a pattern literally. *)
Definition literal_match (pattern path : jsstring) : option (list (jsstring * jsstring)) :=
  if bool_decide (pattern = path) then Some [] else None.
Definition pass_on (_ : request) : passed unit := Next tt.
Definition empty_body (_ : request) : passed chat_request :=
  Next {| prompt := VUndefined; systemMessage := VUndefined |}.
Definition no_static_file (_ : request) (_ : world) : passed unit := Next tt.

Definition quota_exceeded : error :=
  {| code := VStr (lit "insufficient_quota");
     message := VStr (lit "You exceeded your current quota") |}.
Definition bad_key : error :=
  {| code := VStr (lit "invalid_api_key");
     message := VStr (lit "Incorrect API key provided") |}.
Definition connection_reset : error :=
  {| code := VStr (lit "ECONNRESET"); message := VStr (lit "socket hang up") |}.

(** A provider whose first choice has no text ([content: null]) and whose
    speech endpoint answers all the same. *)
Definition silent : openai_client :=
  {| chat_completions_create := fun _ =>
       Ok {| choices := [ {| message_content := None |} ] |};
     audio_speech_create := fun _ =>
       Ok {| arrayBuffer := Ok [Byte.x49; Byte.x44; Byte.x33] |} |}.


(* ===================================================================== *)
(** ** Properties: strings *)
(* ===================================================================== *)

Example trim_example :
  JsString.trim (lit "  Say hello ") = lit "Say hello".
Proof. reflexivity. Qed.

Lemma trimStart_white_space (s : jsstring) :
  forallb JsString.is_white_space s = true -> JsString.trimStart s = [].
Proof.
  induction s as [|c s IH]; simpl; [reflexivity|].
  intros H. apply andb_prop in H as [Hc Hs]. rewrite Hc. auto.
Qed.

Lemma trim_white_space (s : jsstring) :
  forallb JsString.is_white_space s = true -> JsString.trim s = [].
Proof.
  intros H. unfold JsString.trim. rewrite trimStart_white_space by assumption.
  reflexivity.
Qed.

Lemma trimStart_nil (s : jsstring) :
  JsString.trimStart s = [] -> forallb JsString.is_white_space s = true.
Proof.
  induction s as [|c s IH]; simpl; [reflexivity|].
  destruct (JsString.is_white_space c); [exact IH|discriminate].
Qed.

Lemma trimStart_head (s : jsstring) (c : JsString.code_unit) (s' : jsstring) :
  JsString.trimStart s = c :: s' -> JsString.is_white_space c = false.
Proof.
  induction s as [|x s IH]; simpl; [discriminate|].
  destruct (JsString.is_white_space x) eqn:E; [exact IH|].
  intros [= <- _]. exact E.
Qed.

(** The strings that are empty after trimming are the strings of white
    space only. *)
Lemma trim_nil_iff (s : jsstring) :
  JsString.trim s = [] <-> forallb JsString.is_white_space s = true.
Proof.
  split; [|apply trim_white_space].
  unfold JsString.trim, JsString.trimEnd. intros H.
  apply (f_equal (@rev _)) in H. rewrite rev_involutive in H. simpl in H.
  apply trimStart_nil in H. rewrite forallb_forall in H.
  destruct (JsString.trimStart s) as [|c s'] eqn:E; [now apply trimStart_nil|].
  apply trimStart_head in E.
  rewrite (H c) in E; [discriminate|]. apply in_rev. rewrite rev_involutive. now left.
Qed.

Lemma validate_blank (v : jsvalue) : blank v = true -> validate v = Ok None.
Proof.
  destruct v as [| | | |s| |]; simpl; try discriminate; try reflexivity.
  intros H. unfold validate. simpl.
  destruct s as [|c s]; [reflexivity|].
  rewrite bool_decide_eq_false_2 by discriminate. simpl.
  rewrite trim_white_space by assumption.
  reflexivity.
Qed.

Lemma validate_string (s : jsstring) :
  JsString.trim s <> [] -> validate (VStr s) = Ok (Some s).
Proof.
  intros H. unfold validate. simpl.
  destruct s as [|c s]; [exfalso; apply H; reflexivity|].
  rewrite bool_decide_eq_false_2 by discriminate. simpl.
  rewrite bool_decide_eq_false_2 by assumption. reflexivity.
Qed.

Lemma validate_non_string (v : jsvalue) :
  truthy v = true -> is_string v = false ->
  validate v = Throw (TypeError "prompt.trim is not a function").
Proof.
  intros Ht Hs. unfold validate. rewrite Ht. simpl.
  destruct v; try reflexivity; discriminate.
Qed.

(** *** Decimal rendering of a time value *)

Lemma lit_inj (a b : string) : lit a = lit b -> a = b.
Proof.
  unfold JsString.lit. intros H.
  rewrite <- (string_of_list_ascii_of_string a), <- (string_of_list_ascii_of_string b).
  f_equal.
  assert (Hinj : forall x y : ascii, N_of_ascii x = N_of_ascii y -> x = y).
  { intros x y E. rewrite <- (ascii_N_embedding x), <- (ascii_N_embedding y).
    now rewrite E. }
  revert H. generalize (list_ascii_of_string b).
  induction (list_ascii_of_string a) as [|x l IH]; intros [|y l'] E;
    simpl in E; try discriminate; [reflexivity|].
  injection E as E1 E2. f_equal; auto.
Qed.

Lemma to_int_not_nil (n : Z) : Z.to_int n <> Decimal.Pos Decimal.Nil /\ Z.to_int n <> Decimal.Neg Decimal.Nil.
Proof.
  destruct n as [|p|p]; simpl; split; try discriminate;
    intros [= H]; exact (DecimalPos.Unsigned.to_uint_nonnil p H).
Qed.

Lemma of_int_inj (a b : Z) : JsString.of_int a = JsString.of_int b -> a = b.
Proof.
  unfold JsString.of_int. intros H. apply lit_inj in H.
  apply DecimalZ.to_int_inj.
  destruct (to_int_not_nil a) as [Ha1 Ha2], (to_int_not_nil b) as [Hb1 Hb2].
  pose proof (NilZero.isi _ Ha1 Ha2) as Ea. pose proof (NilZero.isi _ Hb1 Hb2) as Eb.
  rewrite H in Ea. rewrite Ea in Eb. now injection Eb.
Qed.

Lemma digits_of_uint (d : Decimal.uint) :
  forallb JsString.is_digit (lit (NilEmpty.string_of_uint d)) = true.
Proof. induction d; simpl; auto. Qed.

(** A time value that is not negative is rendered as a non-empty run of
    decimal digits. *)
Lemma of_int_digits (n : Z) :
  0 <= n -> JsString.of_int n <> [] /\ forallb JsString.is_digit (JsString.of_int n) = true.
Proof.
  intros Hn. unfold JsString.of_int.
  destruct n as [|p|p]; [split; [discriminate|reflexivity]| |lia].
  simpl. pose proof (DecimalPos.Unsigned.to_uint_nonnil p) as Hnil.
  destruct (Pos.to_uint p) eqn:E; try (exfalso; apply Hnil; reflexivity);
    (split; [discriminate|]); rewrite <- E;
    unfold NilZero.string_of_uint; rewrite E; rewrite <- E at 1;
    apply digits_of_uint.
Qed.

Lemma audio_file_name_inj (a b : Z) : audio_file_name a = audio_file_name b -> a = b.
Proof.
  unfold audio_file_name. intros H.
  apply app_inv_head in H. apply app_inv_tail in H. now apply of_int_inj.
Qed.

(* ===================================================================== *)
(** ** Properties: POST /api/chat *)
(* ===================================================================== *)

Lemma writeFileSync_calls (name : jsstring) (buffer : list Byte.byte) (t : Z) (w : world) :
  calls (writeFileSync name buffer t w).2 = calls w.
Proof.
  unfold writeFileSync. destruct (disk w !! name) as [e|]; [|reflexivity].
  destruct (is_directory e); reflexivity.
Qed.

(** The try block, step by step, for a prompt that passes validation. *)
Lemma chat_try_valid (rt : runtime) (req : chat_request) (w : world) (s : jsstring) :
  prompt req = VStr s -> JsString.trim s <> [] ->
  let p := chat_params_of (defaultSystemMessage (systemMessage req)) s in
  let w1 := {| disk := disk w; calls := calls w ++ [ChatCompletionsCreate p] |} in
  chat_try rt req w =
    match chat_completions_create (openai rt) p with
    | Throw e => (Throw e, w1)
    | Ok c =>
        match first_content c with
        | Throw e => (Throw e, w1)
        | Ok textResponse =>
            let q := speech_params_of textResponse in
            let w2 := {| disk := disk w;
                         calls := (calls w ++ [ChatCompletionsCreate p]) ++ [AudioSpeechCreate q] |} in
            match audio_speech_create (openai rt) q with
            | Throw e => (Throw e, w2)
            | Ok speech =>
                match arrayBuffer speech with
                | Throw e => (Throw e, w2)
                | Ok buffer =>
                    match writeFileSync (audio_file_name (clock rt 0%nat)) buffer
                                        (clock rt 1%nat) w2 with
                    | (Throw e, w3) => (Throw e, w3)
                    | (Ok _, w3) =>
                        match textResponse with
                        | Some text =>
                            (Ok (json 200 (ChatBody {|
                               success := true;
                               textResponse := text;
                               audioUrl := lit "/audio/" ++ audio_file_name (clock rt 0%nat);
                               audioFileName := audio_file_name (clock rt 0%nat);
                               timestamp := clock rt 2%nat;
                               promptLength := JsString.length s;
                               responseLength := JsString.length text |})), w3)
                        | None =>
                            (Throw (TypeError "Cannot read properties of null (reading 'length')"), w3)
                        end
                    end
                end
            end
        end
    end.
Proof.
  intros Hp Hs p w1. unfold chat_try, bind, lift.
  rewrite Hp, (validate_string s Hs).
  unfold openai_chat_completions_create. fold p. fold w1.
  destruct (chat_completions_create (openai rt) p) as [c|e]; [|reflexivity].
  destruct (first_content c) as [textResponse|e]; [|reflexivity].
  unfold openai_audio_speech_create. simpl.
  destruct (audio_speech_create (openai rt) (speech_params_of textResponse)) as [speech|e];
    [|reflexivity].
  destruct (arrayBuffer speech) as [buffer|e]; [|reflexivity].
  destruct (writeFileSync _ buffer _ _) as [[[]|e] w3]; [|reflexivity].
  destruct textResponse; reflexivity.
Qed.

(** The first request of a valid chat is the chat completion, with the
    system message [systemMessage || personality]. *)
Lemma chat_first_call (rt : runtime) (req : chat_request) (w : world) (s : jsstring) :
  prompt req = VStr s -> JsString.trim s <> [] ->
  exists rest,
    new_calls w (chat rt req w).2 =
      ChatCompletionsCreate (chat_params_of (defaultSystemMessage (systemMessage req)) s)
      :: rest.
Proof.
  intros Hp Hs. unfold chat, try_catch. rewrite (chat_try_valid rt req w s Hp Hs).
  unfold new_calls, ret. cbv zeta.
  destruct (chat_completions_create _ _) as [c|e]; simpl;
    [|rewrite drop_app_length; eauto].
  destruct (first_content c) as [textResponse|e]; simpl;
    [|rewrite drop_app_length; eauto].
  destruct (audio_speech_create _ _) as [speech|e]; simpl;
    [|rewrite <- app_assoc, drop_app_length; eauto].
  destruct (arrayBuffer speech) as [buffer|e]; simpl;
    [|rewrite <- app_assoc, drop_app_length; eauto].
  match goal with
  | |- context [writeFileSync ?n ?b ?t ?w2] =>
      pose proof (writeFileSync_calls n b t w2) as Hc;
      destruct (writeFileSync n b t w2) as [[[]|e] w3]
  end; simpl in *; [destruct textResponse; simpl|];
    rewrite Hc, <- app_assoc, drop_app_length; eauto.
Qed.

Lemma effective_system_message_valid (rt : runtime) (req : chat_request) (w : world)
      (s : jsstring) :
  prompt req = VStr s -> JsString.trim s <> [] ->
  effective_system_message rt req w = Some (defaultSystemMessage (systemMessage req)).
Proof.
  intros Hp Hs. unfold effective_system_message.
  destruct (chat_first_call rt req w s Hp Hs) as [rest ->].
  reflexivity.
Qed.

(** C1. A chat request whose prompt is absent, empty or white space only
    is answered 400 with the body [{error: 'Prompt is required and cannot
    be empty'}]; the world is left as it was: no request to the
    text-generation or speech provider is made and no audio file is
    written. *)
Theorem chat_blank_prompt_rejected (rt : runtime) (req : chat_request) (w : world) :
  blank (prompt req) = true ->
  chat rt req w =
    (Ok {| status := 400; headers := [];
           body := ErrorBody (lit "Prompt is required and cannot be empty") None None |},
     w).
Proof.
  intros H. unfold chat, try_catch, chat_try, bind, lift.
  rewrite (validate_blank _ H). reflexivity.
Qed.

Lemma chat_blank_prompt_rejected_witness :
  let req := {| prompt := VStr (lit "   "); systemMessage := VUndefined |} in
  let rt := runtime_with None answering 1700000000000 in
  blank (prompt req) = true /\
  chat rt req empty_world =
    (Ok {| status := 400; headers := [];
           body := ErrorBody (lit "Prompt is required and cannot be empty") None None |},
     empty_world).
Proof.
  split; [reflexivity|].
  apply (chat_blank_prompt_rejected
           (runtime_with None answering 1700000000000)
           {| prompt := VStr (lit "   "); systemMessage := VUndefined |}
           empty_world).
  reflexivity.
Defined.

(** C9. A chat request whose prompt is truthy and not a string (a number,
    [true], an array, an object) is answered 500 [server_error], not 400:
    the call of [trim] throws and the exception reaches the last branch of
    the catch block. Nothing was sent to the provider or written. *)
Theorem chat_non_string_prompt_is_500 (rt : runtime) (req : chat_request) (w : world) :
  truthy (prompt req) = true -> is_string (prompt req) = false ->
  chat rt req w =
    (Ok {| status := 500; headers := [];
           body := ErrorBody (lit "Internal server error while processing your request")
                             (Some (lit "server_error"))
                             (if bool_decide (NODE_ENV rt = Some (lit "development"))
                              then Some (VStr (lit "prompt.trim is not a function"))
                              else None) |},
     w).
Proof.
  intros Ht Hs. unfold chat, try_catch, chat_try, bind, lift.
  rewrite (validate_non_string _ Ht Hs). reflexivity.
Qed.

Lemma chat_non_string_prompt_is_500_witness :
  status <$> (match (chat (runtime_with None answering 1700000000000)
                          {| prompt := VNum (S754_finite false 42 0);
                             systemMessage := VUndefined |}
                          empty_world).1 with
              | Ok r => Some r
              | Throw _ => None
              end) = Some 500.
Proof.
  rewrite (chat_non_string_prompt_is_500
             (runtime_with None answering 1700000000000)
             {| prompt := VNum (S754_finite false 42 0); systemMessage := VUndefined |}
             empty_world eq_refl eq_refl).
  reflexivity.
Defined.

(** C7. For a valid chat request without a systemMessage, the system
    message sent to the text-generation provider is the fixed default
    personality string. *)
Theorem chat_default_system_message (rt : runtime) (req : chat_request) (w : world)
        (s : jsstring) :
  prompt req = VStr s -> JsString.trim s <> [] ->
  systemMessage req = VUndefined ->
  effective_system_message rt req w =
    Some (VStr (lit ("You are a helpful, friendly, and conversational AI assistant. "
                     ++ "Provide clear, concise, and engaging responses. "
                     ++ "Keep your responses conversational and natural, as if speaking to a friend."))).
Proof.
  intros Hp Hs Hsm.
  rewrite (effective_system_message_valid rt req w s Hp Hs), Hsm.
  reflexivity.
Qed.

Lemma chat_default_system_message_witness :
  effective_system_message (runtime_with None answering 1700000000000) say_hello empty_world =
    Some (VStr personality).
Proof.
  apply (chat_default_system_message
           (runtime_with None answering 1700000000000) say_hello empty_world
           (lit "Say hello") eq_refl).
  - intros H. vm_compute in H. discriminate H.
  - reflexivity.
Defined.

(** C2, as the code has it. The systemMessage of a valid chat request is
    not trimmed: a non-empty string is sent to the text-generation provider
    as it was received, and only the empty string is replaced by the
    default personality string. *)
Theorem chat_system_message_sent_raw (rt : runtime) (req : chat_request) (w : world)
        (s sm : jsstring) :
  prompt req = VStr s -> JsString.trim s <> [] ->
  systemMessage req = VStr sm ->
  effective_system_message rt req w =
    Some (VStr (if bool_decide (sm = []) then personality else sm)).
Proof.
  intros Hp Hs Hsm.
  rewrite (effective_system_message_valid rt req w s Hp Hs), Hsm.
  unfold defaultSystemMessage. simpl.
  destruct (bool_decide (sm = [])); reflexivity.
Qed.

Lemma chat_system_message_sent_raw_witness :
  effective_system_message
    (runtime_with None answering 1700000000000)
    {| prompt := VStr (lit "Say hello"); systemMessage := VStr (lit " Be brief. ") |}
    empty_world
  = Some (VStr (lit " Be brief. ")).
Proof.
  apply (chat_system_message_sent_raw
           (runtime_with None answering 1700000000000)
           {| prompt := VStr (lit "Say hello"); systemMessage := VStr (lit " Be brief. ") |}
           empty_world (lit "Say hello") (lit " Be brief. ") eq_refl).
  - intros H. vm_compute in H. discriminate H.
  - reflexivity.
Defined.

(** C2, as the specification words it, fails: a systemMessage of white
    space only is sent as it is where the specification substitutes the
    default, and a padded one is sent with its padding. *)
Lemma chat_system_message_not_trimmed :
  let rt := runtime_with None answering 1700000000000 in
  let blank_sm := {| prompt := VStr (lit "Say hello"); systemMessage := VStr (lit "   ") |} in
  let padded_sm := {| prompt := VStr (lit "Say hello"); systemMessage := VStr (lit " Be brief. ") |} in
  (effective_system_message rt blank_sm empty_world = Some (VStr (lit "   "))
   /\ spec_system_message (lit "   ") = personality
   /\ effective_system_message rt blank_sm empty_world
      <> Some (VStr (spec_system_message (lit "   "))))
  /\ (effective_system_message rt padded_sm empty_world = Some (VStr (lit " Be brief. "))
      /\ spec_system_message (lit " Be brief. ") = lit "Be brief."
      /\ effective_system_message rt padded_sm empty_world
         <> Some (VStr (spec_system_message (lit " Be brief. ")))).
Proof.
  repeat split; try (vm_compute; reflexivity);
    intros H; vm_compute in H; discriminate H.
Qed.

(** *** Successful runs *)

Lemma writeFileSync_ok (name : jsstring) (buffer : list Byte.byte) (t : Z) (w : world) :
  (forall e, disk w !! name = Some e -> is_directory e = false) ->
  writeFileSync name buffer t w =
    (Ok tt, {| disk := <[name := {| mtime := t; kind := File buffer |}]> (disk w);
               calls := calls w |}).
Proof.
  intros H. unfold writeFileSync.
  destruct (disk w !! name) as [e|]; [|reflexivity].
  rewrite (H e eq_refl). reflexivity.
Qed.

Lemma validate_inv (v : jsvalue) (s : jsstring) :
  validate v = Ok (Some s) -> v = VStr s /\ JsString.trim s <> [].
Proof.
  unfold validate. destruct (negb (truthy v)); [discriminate|].
  destruct v; try discriminate.
  case_bool_decide; [discriminate|]. intros [= ->]. auto.
Qed.

(** When the provider answers both requests and the file can be written,
    the chat route answers 200. *)
Lemma chat_success (rt : runtime) (req : chat_request) (w : world) (s text : jsstring)
      (c : chat_completion) (speech : speech_response) (buffer : list Byte.byte) :
  prompt req = VStr s -> JsString.trim s <> [] ->
  chat_completions_create (openai rt)
    (chat_params_of (defaultSystemMessage (systemMessage req)) s) = Ok c ->
  first_content c = Ok (Some text) ->
  audio_speech_create (openai rt) (speech_params_of (Some text)) = Ok speech ->
  arrayBuffer speech = Ok buffer ->
  (forall e, disk w !! audio_file_name (clock rt 0%nat) = Some e -> is_directory e = false) ->
  chat rt req w =
    (Ok (json 200 (ChatBody {|
           success := true;
           textResponse := text;
           audioUrl := lit "/audio/" ++ audio_file_name (clock rt 0%nat);
           audioFileName := audio_file_name (clock rt 0%nat);
           timestamp := clock rt 2%nat;
           promptLength := JsString.length s;
           responseLength := JsString.length text |})),
     {| disk := <[audio_file_name (clock rt 0%nat) :=
                        {| mtime := clock rt 1%nat; kind := File buffer |}]> (disk w);
        calls := calls w
                 ++ [ChatCompletionsCreate
                       (chat_params_of (defaultSystemMessage (systemMessage req)) s);
                     AudioSpeechCreate (speech_params_of (Some text))] |}).
Proof.
  intros Hp Hs Hc Hf Ha Hb Hw. unfold chat, try_catch.
  rewrite (chat_try_valid rt req w s Hp Hs). cbv zeta.
  rewrite Hc, Hf, Ha, Hb, writeFileSync_ok by exact Hw.
  simpl. rewrite <- app_assoc. reflexivity.
Qed.

Lemma chat_catch_not_200 (rt : runtime) (e : error) : status (chat_catch rt e) <> 200.
Proof.
  unfold chat_catch.
  destruct (strict_eq_string _ _); [discriminate|].
  destruct (strict_eq_string _ _); discriminate.
Qed.

Ltac not_a_200 H Hst :=
  unfold ret in H; injection H as <- _;
  first [discriminate Hst | destruct (chat_catch_not_200 _ _ Hst)].

Lemma writeFileSync_inv (name : jsstring) (buffer : list Byte.byte) (t : Z) (w w' : world) :
  writeFileSync name buffer t w = (Ok tt, w') ->
  w' = {| disk := <[name := {| mtime := t; kind := File buffer |}]> (disk w);
          calls := calls w |}.
Proof.
  unfold writeFileSync. destruct (disk w !! name) as [e|].
  - destruct (is_directory e); [discriminate|]. now intros [= <-].
  - now intros [= <-].
Qed.

(** A 200 of the chat route, in full: both requests to the provider were
    answered, the file was written, and nothing else happened. *)
Lemma chat_200_run (rt : runtime) (req : chat_request) (w w' : world) (r : response) :
  chat rt req w = (Ok r, w') -> status r = 200 ->
  exists s text c speech buffer,
    prompt req = VStr s /\ JsString.trim s <> [] /\
    chat_completions_create (openai rt)
      (chat_params_of (defaultSystemMessage (systemMessage req)) s) = Ok c /\
    first_content c = Ok (Some text) /\
    audio_speech_create (openai rt) (speech_params_of (Some text)) = Ok speech /\
    arrayBuffer speech = Ok buffer /\
    r = json 200 (ChatBody {|
           success := true;
           textResponse := text;
           audioUrl := lit "/audio/" ++ audio_file_name (clock rt 0%nat);
           audioFileName := audio_file_name (clock rt 0%nat);
           timestamp := clock rt 2%nat;
           promptLength := JsString.length s;
           responseLength := JsString.length text |}) /\
    w' = {| disk := <[audio_file_name (clock rt 0%nat) :=
                       {| mtime := clock rt 1%nat; kind := File buffer |}]> (disk w);
            calls := calls w
                     ++ [ChatCompletionsCreate
                           (chat_params_of (defaultSystemMessage (systemMessage req)) s);
                         AudioSpeechCreate (speech_params_of (Some text))] |}.
Proof.
  unfold chat, try_catch. intros H Hst.
  destruct (validate (prompt req)) as [[s|]|e] eqn:Hv.
  - apply validate_inv in Hv as [Hp Hs].
    rewrite (chat_try_valid rt req w s Hp Hs) in H. cbv zeta in H.
    exists s.
    destruct (chat_completions_create _ _) as [c|e] eqn:Hc; [|not_a_200 H Hst].
    destruct (first_content c) as [textResponse|e] eqn:Hf; [|not_a_200 H Hst].
    destruct (audio_speech_create _ _) as [speech|e] eqn:Ha; [|not_a_200 H Hst].
    destruct (arrayBuffer speech) as [buffer|e] eqn:Hb; [|not_a_200 H Hst].
    destruct (writeFileSync _ _ _ _) as [[[]|e] w3] eqn:Hw; [|not_a_200 H Hst].
    destruct textResponse as [text|]; [|not_a_200 H Hst].
    injection H as <- <-. exists text, c, speech, buffer.
    apply writeFileSync_inv in Hw. cbn [disk calls] in Hw.
    rewrite <- app_assoc in Hw.
    repeat split; auto.
  - unfold chat_try, bind, lift in H. rewrite Hv in H. not_a_200 H Hst.
  - unfold chat_try, bind, lift in H. rewrite Hv in H. not_a_200 H Hst.
Qed.

(** C4, as the code has it. Every successful chat request names its audio
    file [response_<n>.mp3], where n is the clock reading in milliseconds
    (a run of decimal digits when it is not negative), and has written the
    file under that name; the names of two requests are equal exactly when
    their clock readings are equal, so they are distinct only when the
    readings differ. When the second request follows the first and reads
    the same millisecond, the file of that name holds the audio of the
    second request: the later file has replaced the earlier one. When the
    readings differ, the file of the first request is left as it was. *)
Theorem chat_audio_file_names (rt1 rt2 : runtime) (req1 req2 : chat_request)
        (w1 w1' w2 w2' : world) (r1 r2 : response) :
  chat rt1 req1 w1 = (Ok r1, w1') -> status r1 = 200 ->
  chat rt2 req2 w2 = (Ok r2, w2') -> status r2 = 200 ->
  exists c1 c2,
    body r1 = ChatBody c1 /\ body r2 = ChatBody c2 /\
    audioFileName c1 = lit "response_" ++ JsString.of_int (clock rt1 0%nat) ++ lit ".mp3" /\
    audioFileName c2 = lit "response_" ++ JsString.of_int (clock rt2 0%nat) ++ lit ".mp3" /\
    is_Some (disk w1' !! audioFileName c1) /\ is_Some (disk w2' !! audioFileName c2) /\
    (0 <= clock rt1 0%nat ->
     JsString.of_int (clock rt1 0%nat) <> [] /\
     forallb JsString.is_digit (JsString.of_int (clock rt1 0%nat)) = true) /\
    (audioFileName c1 = audioFileName c2 <-> clock rt1 0%nat = clock rt2 0%nat) /\
    (w2 = w1' -> clock rt1 0%nat = clock rt2 0%nat ->
     exists speech2 buffer2,
       audio_speech_create (openai rt2) (speech_params_of (Some (textResponse c2)))
         = Ok speech2 /\
       arrayBuffer speech2 = Ok buffer2 /\
       disk w2' !! audioFileName c1
         = Some {| mtime := clock rt2 1%nat; kind := File buffer2 |}) /\
    (w2 = w1' -> clock rt1 0%nat <> clock rt2 0%nat ->
     disk w2' !! audioFileName c1 = disk w1' !! audioFileName c1).
Proof.
  intros H1 S1 H2 S2.
  destruct (chat_200_run _ _ _ _ _ H1 S1)
    as (s1 & t1 & c1 & sp1 & b1 & _ & _ & _ & _ & _ & _ & -> & ->).
  destruct (chat_200_run _ _ _ _ _ H2 S2)
    as (s2 & t2 & c2 & sp2 & b2 & _ & _ & _ & _ & Ha & Hb & -> & ->).
  do 2 eexists. split; [reflexivity|]. split; [reflexivity|].
  cbn [audioFileName textResponse disk].
  split; [reflexivity|]. split; [reflexivity|].
  split; [rewrite lookup_insert_eq; eauto|]. split; [rewrite lookup_insert_eq; eauto|].
  split; [apply of_int_digits|].
  split; [split; [apply audio_file_name_inj | intros ->; reflexivity]|].
  split.
  - intros _ Hclock. exists sp2, b2. split; [exact Ha|]. split; [exact Hb|].
    rewrite Hclock. apply lookup_insert_eq.
  - intros -> Hclock. cbn [disk]. apply lookup_insert_ne.
    intros E. apply Hclock. symmetry. now apply audio_file_name_inj.
Qed.

Lemma chat_audio_file_names_witness :
  exists c1 c2,
    audioFileName c1 = lit "response_1700000000000.mp3" /\
    audioFileName c2 = lit "response_1700000000001.mp3" /\
    audioFileName c1 <> audioFileName c2.
Proof.
  destruct (chat_audio_file_names
              (runtime_with None answering 1700000000000)
              (runtime_with None answering 1700000000001)
              say_hello say_hello empty_world _ empty_world _ _ _
              eq_refl eq_refl eq_refl eq_refl)
    as (c1 & c2 & _ & _ & N1 & N2 & _ & _ & _ & Hiff & _).
  exists c1, c2. split; [exact N1|]. split; [exact N2|].
  intros E. apply Hiff in E. discriminate E.
Defined.

(** C4, as the specification words it, fails: two requests that read the
    clock in the same millisecond get the same file name, and the second
    file replaces the first. *)
Lemma chat_same_millisecond_same_name :
  let rt := runtime_with None answering 1700000000000 in
  let first := chat rt say_hello empty_world in
  let second := chat rt say_hello first.2 in
  exists c1 c2,
    first.1 = Ok (json 200 (ChatBody c1)) /\
    second.1 = Ok (json 200 (ChatBody c2)) /\
    audioFileName c1 = audioFileName c2 /\
    size (disk second.2) = 1%nat.
Proof.
  do 2 eexists. vm_compute. repeat split.
Qed.

(** C6, as the code has it. When the provider answers with a non-empty
    text and with audio, and the file can be written, the request
    [{prompt: 'Say hello'}] is answered 200 with [success: true], that
    text as [textResponse], an [audioUrl] of the form
    [/audio/response_<digits>.mp3] and [promptLength] 9, the number of
    characters of the prompt. *)
Theorem chat_say_hello (rt : runtime) (sm : jsvalue) (w : world) (text : jsstring)
        (c : chat_completion) (speech : speech_response) (buffer : list Byte.byte) :
  chat_completions_create (openai rt)
    (chat_params_of (defaultSystemMessage sm) (lit "Say hello")) = Ok c ->
  first_content c = Ok (Some text) ->
  text <> [] ->
  audio_speech_create (openai rt) (speech_params_of (Some text)) = Ok speech ->
  arrayBuffer speech = Ok buffer ->
  (forall e, disk w !! audio_file_name (clock rt 0%nat) = Some e -> is_directory e = false) ->
  0 <= clock rt 0%nat ->
  exists r w' cr digits,
    chat rt {| prompt := VStr (lit "Say hello"); systemMessage := sm |} w = (Ok r, w') /\
    status r = 200 /\ body r = ChatBody cr /\
    success cr = true /\
    textResponse cr = text /\ textResponse cr <> [] /\
    audioUrl cr = lit "/audio/response_" ++ digits ++ lit ".mp3" /\
    digits <> [] /\ forallb JsString.is_digit digits = true /\
    promptLength cr = 9.
Proof.
  intros Hc Hf Ht Ha Hb Hw Hn.
  pose proof (chat_success rt {| prompt := VStr (lit "Say hello"); systemMessage := sm |}
                w (lit "Say hello") text c speech buffer eq_refl) as H.
  simpl in H. specialize (H ltac:(discriminate) Hc Hf Ha Hb Hw).
  destruct (of_int_digits _ Hn) as [D1 D2].
  do 3 eexists. exists (JsString.of_int (clock rt 0%nat)).
  split; [exact H|]. simpl. repeat split; auto.
Qed.

Lemma chat_say_hello_witness :
  exists r w' cr digits,
    chat (runtime_with None answering 1700000000000) say_hello empty_world = (Ok r, w') /\
    status r = 200 /\ body r = ChatBody cr /\
    success cr = true /\
    textResponse cr = lit "Hello there!" /\ textResponse cr <> [] /\
    audioUrl cr = lit "/audio/response_" ++ digits ++ lit ".mp3" /\
    digits <> [] /\ forallb JsString.is_digit digits = true /\
    promptLength cr = 9.
Proof.
  apply (chat_say_hello (runtime_with None answering 1700000000000) VUndefined empty_world
           (lit "Hello there!")
           {| choices := [ {| message_content := Some (lit "Hello there!") |} ] |}
           {| arrayBuffer := Ok [Byte.x49; Byte.x44; Byte.x33] |}
           [Byte.x49; Byte.x44; Byte.x33] eq_refl eq_refl).
  - discriminate.
  - reflexivity.
  - reflexivity.
  - intros e H. vm_compute in H. discriminate H.
  - vm_compute. discriminate.
Defined.

(** C6, as the specification words it, fails: the prompt [Say hello] has
    nine characters, and [promptLength] is 9, not 10. *)
Lemma chat_say_hello_length_is_9 :
  exists cr,
    (chat (runtime_with None answering 1700000000000) say_hello empty_world).1
      = Ok (json 200 (ChatBody cr)) /\
    promptLength cr = 9 /\ promptLength cr <> 10.
Proof.
  eexists. vm_compute. repeat split. discriminate.
Qed.

(* ===================================================================== *)
(** ** Properties: DELETE /api/cleanup *)
(* ===================================================================== *)

Lemma expired_in_delete (now : Z) (m : gmap jsstring entry) (f g : jsstring) :
  f <> g -> expired_in now (delete f m) g = expired_in now m g.
Proof. intros H. unfold expired_in. now rewrite lookup_delete_ne. Qed.

(** The loop over a run of names that are all there and of which the
    expired ones are files: it removes the expired ones, counts them, and
    goes on with the rest of the listing. *)
Lemma forEach_file_prefix (now : Z) (pre rest : list jsstring) :
  forall (n : Z) (m : gmap jsstring entry) (cs : list call),
    NoDup pre ->
    (forall f, f ∈ pre ->
       exists e, m !! f = Some e /\ (expired now e = true -> is_directory e = false)) ->
    exists m',
      forEach_file now (pre ++ rest) n {| disk := m; calls := cs |} =
        forEach_file now rest (n + Z.of_nat (size m) - Z.of_nat (size m'))
                     {| disk := m'; calls := cs |}
      /\ (forall i, m' !! i =
                    if bool_decide (i ∈ pre) && expired_in now m i then None else m !! i).
Proof.
  induction pre as [|f pre IH]; intros n m cs Hnd Hpre.
  - exists m. split; [simpl; f_equal; lia|]. intros i.
    rewrite bool_decide_eq_false_2 by apply not_elem_of_nil. reflexivity.
  - apply list.NoDup_cons in Hnd as [Hf Hnd].
    destruct (Hpre f) as (e & He & Hdir); [left|].
    simpl. unfold bind at 1. unfold statSync. simpl. rewrite He.
    destruct (expired now e) eqn:Hex.
    + unfold bind at 1. unfold unlinkSync. simpl. rewrite He, (Hdir eq_refl).
      destruct (IH (n + 1) (delete f m) cs Hnd) as (m' & Hrun & Hlook).
      { intros g Hg. destruct (Hpre g) as (e' & He' & Hd'); [now right|].
        exists e'. split; [|exact Hd'].
        rewrite lookup_delete_ne; [exact He'|]. intros ->. contradiction. }
      exists m'. split.
      * rewrite Hrun. f_equal.
        rewrite (map_size_delete_Some f m) by (rewrite He; eauto).
        assert (size m <> 0%nat) by (apply (map_size_ne_0_lookup_2 m f); rewrite He; eauto).
        lia.
      * intros i. rewrite Hlook. destruct (decide (i = f)) as [->|Hne].
        -- rewrite (bool_decide_eq_false_2 (f ∈ pre)) by exact Hf.
           rewrite (bool_decide_eq_true_2 (f ∈ f :: pre)) by left.
           simpl. rewrite lookup_delete_eq. unfold expired_in. rewrite He, Hex. reflexivity.
        -- rewrite expired_in_delete, lookup_delete_ne by congruence.
           rewrite (bool_decide_ext (i ∈ pre) (i ∈ f :: pre)); [reflexivity|].
           rewrite elem_of_cons. tauto.
    + destruct (IH n m cs Hnd) as (m' & Hrun & Hlook).
      { intros g Hg. apply Hpre. now right. }
      exists m'. split; [exact Hrun|].
      intros i. rewrite Hlook. destruct (decide (i = f)) as [->|Hne].
      * rewrite (bool_decide_eq_false_2 (f ∈ pre)) by exact Hf.
        unfold expired_in. rewrite He, Hex, !andb_false_r. reflexivity.
      * rewrite (bool_decide_ext (i ∈ pre) (i ∈ f :: pre)); [reflexivity|].
        rewrite elem_of_cons. tauto.
Qed.

Lemma entries_iff (m : gmap jsstring entry) (f : jsstring) :
  f ∈ entries m <-> is_entry_name f = true /\ is_Some (m !! f).
Proof.
  unfold entries. rewrite merge_sort_Permutation.
  rewrite list_elem_of_filter, list_elem_of_fmap.
  apply and_iff_compat_l. split.
  - intros ([k e] & -> & H). apply elem_of_map_to_list in H. eauto.
  - intros [e H]. exists (f, e). split; [reflexivity|]. now apply elem_of_map_to_list.
Qed.

Lemma NoDup_entries (m : gmap jsstring entry) : NoDup (entries m).
Proof.
  unfold entries. rewrite merge_sort_Permutation.
  apply list.NoDup_filter, NoDup_fst_map_to_list.
Qed.

Lemma leb_total (a b : jsstring) : name_le a b \/ name_le b a.
Proof.
  unfold name_le. revert b. induction a as [|x a IH]; intros [|y b]; simpl; auto.
  destruct (N.ltb_spec x y) as [Hxy|Hxy]; [now left|].
  destruct (N.ltb_spec y x) as [Hyx|Hyx]; [now right|].
  assert (x = y) as -> by lia. rewrite N.eqb_refl. apply IH.
Qed.

(** The listing is sorted. *)
Lemma entries_sorted (m : gmap jsstring entry) :
  Sorted name_le (entries m).
Proof.
  unfold entries. apply Sorted_merge_sort. intros a b. apply leb_total.
Qed.

Example entries_example :
  entries two_files_and_a_directory = [lit "archive"; lit "new.mp3"; lit "old.mp3"].
Proof. vm_compute. reflexivity. Qed.

Lemma cleanup_try_run (rt : runtime) (w : world) (pre rest : list jsstring) :
  entries (disk w) = pre ++ rest ->
  (forall f e, f ∈ pre -> disk w !! f = Some e ->
               expired (clock rt 0%nat) e = true -> is_directory e = false) ->
  exists m',
    cleanup_try rt w =
      (deletedCount <-
         forEach_file (clock rt 0%nat) rest
                      (Z.of_nat (size (disk w)) - Z.of_nat (size m'));;
       ret (json 200 (CleanupBody
                        (lit "Cleaned up " ++ JsString.of_int deletedCount
                         ++ lit " old audio files")
                        deletedCount)))
        {| disk := m'; calls := calls w |}
    /\ (forall i, m' !! i =
                  if bool_decide (i ∈ pre) && expired_in (clock rt 0%nat) (disk w) i
                  then None else disk w !! i).
Proof.
  intros Hls Hfiles.
  pose proof (NoDup_entries (disk w)) as Hnd.
  rewrite Hls in Hnd. apply list.NoDup_app in Hnd as (Hnd & _ & _).
  destruct (forEach_file_prefix (clock rt 0%nat) pre rest 0 (disk w) (calls w) Hnd)
    as (m' & Hrun & Hlook).
  { intros f Hf.
    assert (is_Some (disk w !! f)) as [e He].
    { apply (entries_iff (disk w) f). rewrite Hls. apply elem_of_app. now left. }
    exists e. split; [exact He|]. now apply (Hfiles f e). }
  exists m'. split; [|exact Hlook].
  unfold cleanup_try. unfold bind at 1. unfold readdirSync.
  rewrite Hls. unfold bind.
  destruct w as [m cs]. cbn [disk calls] in *. rewrite Hrun. reflexivity.
Qed.

(** C3. When every expired entry of the audio directory is a file, DELETE
    /api/cleanup removes exactly the entries whose last modification is
    more than one hour old, and answers 200 with [deletedCount] the number
    of entries removed. If no entry is expired, nothing is removed and
    [deletedCount] is 0; if exactly one is, exactly that one is removed and
    [deletedCount] is 1. *)
Theorem cleanup_deletes_expired (rt : runtime) (w : world) :
  (forall f e, is_entry_name f = true -> disk w !! f = Some e ->
               expired (clock rt 0%nat) e = true -> is_directory e = false) ->
  exists n w',
    cleanup rt w =
      (Ok (json 200 (CleanupBody
                       (lit "Cleaned up " ++ JsString.of_int n ++ lit " old audio files") n)),
       w')
    /\ calls w' = calls w
    /\ disk w' =
         filter (fun kv => ~ (is_entry_name kv.1 = true /\ expired (clock rt 0%nat) kv.2 = true))
                (disk w)
    /\ n = Z.of_nat (size (disk w)) - Z.of_nat (size (disk w'))
    /\ ((forall f, stale (clock rt 0%nat) (disk w) f = false) ->
        disk w' = disk w /\ n = 0)
    /\ (forall f,
          stale (clock rt 0%nat) (disk w) f = true ->
          (forall g, g <> f -> stale (clock rt 0%nat) (disk w) g = false) ->
          disk w' = delete f (disk w) /\ n = 1).
Proof.
  intros Hfiles.
  destruct (cleanup_try_run rt w (entries (disk w)) []) as (m' & Hrun & Hlook).
  { now rewrite app_nil_r. }
  { intros f e Hf. apply Hfiles. now apply entries_iff in Hf as [Hf _]. }
  assert (Hin : forall i, m' !! i =
            if stale (clock rt 0%nat) (disk w) i then None else disk w !! i).
  { intros i. rewrite Hlook. unfold stale, expired_in.
    destruct (disk w !! i) as [e|] eqn:Hi; [|now rewrite !andb_false_r].
    destruct (is_entry_name i) eqn:Hname.
    - rewrite bool_decide_eq_true_2; [reflexivity|].
      apply entries_iff. rewrite Hi. eauto.
    - rewrite bool_decide_eq_false_2; [reflexivity|].
      rewrite entries_iff, Hname. intros [? _]. discriminate. }
  exists (Z.of_nat (size (disk w)) - Z.of_nat (size m')),
         {| disk := m'; calls := calls w |}.
  split; [unfold cleanup, try_catch; rewrite Hrun; reflexivity|].
  split; [reflexivity|]. cbn [disk].
  split.
  { apply map_eq. intros i. rewrite Hin, map_lookup_filter. unfold stale, expired_in.
    destruct (disk w !! i) as [e|]; cbn [mbind option_bind fst snd];
      [|now rewrite andb_false_r].
    destruct (is_entry_name i) eqn:Hname, (expired (clock rt 0%nat) e) eqn:Hex;
      cbn [andb].
    - rewrite option_guard_False; [reflexivity|]. intros H. apply H. auto.
    - rewrite option_guard_True; [reflexivity|]. intros [_ ?]. discriminate.
    - rewrite option_guard_True; [reflexivity|]. intros [? _]. discriminate.
    - rewrite option_guard_True; [reflexivity|]. intros [? _]. discriminate. }
  split; [reflexivity|].
  split.
  - intros Hnone.
    assert (m' = disk w) as ->.
    { apply map_eq. intros i. now rewrite Hin, Hnone. }
    split; [reflexivity|lia].
  - intros f Hf Hothers.
    assert (m' = delete f (disk w)) as ->.
    { apply map_eq. intros i. rewrite Hin. destruct (decide (i = f)) as [->|Hne].
      - now rewrite Hf, lookup_delete_eq.
      - now rewrite (Hothers i Hne), lookup_delete_ne. }
    split; [reflexivity|].
    assert (is_Some (disk w !! f)) as Hsome.
    { unfold stale, expired_in in Hf. apply andb_prop in Hf as [_ Hf].
      destruct (disk w !! f); [eauto|discriminate]. }
    rewrite (map_size_delete_Some f _ Hsome).
    pose proof (map_size_ne_0_lookup_2 (disk w) f Hsome). lia.
Qed.

Lemma cleanup_deletes_expired_witness :
  exists w',
    cleanup (runtime_with None answering 1700000000000)
            {| disk := two_files; calls := [] |}
    = (Ok (json 200 (CleanupBody (lit "Cleaned up 1 old audio files") 1)), w')
    /\ disk w' !! lit "old.mp3" = None
    /\ is_Some (disk w' !! lit "new.mp3").
Proof.
  destruct (cleanup_deletes_expired
              (runtime_with None answering 1700000000000)
              {| disk := two_files; calls := [] |})
    as (n & w' & Hrun & _ & Hdir & Hn & _).
  - intros f e _. revert f e.
    apply (bool_decide_eq_true_1
             (map_Forall (fun _ e => expired 1700000000000 e = true -> is_directory e = false)
                         two_files)).
    vm_compute. reflexivity.
  - exists w'. rewrite Hrun, Hn, Hdir. vm_compute. eauto.
Defined.

(** C10. DELETE /api/cleanup is not atomic. When the listing reaches an
    expired entry that cannot be unlinked (a directory) after a run [pre] of
    entries it could handle, the route answers 500 with the body [{error:
    'Error cleaning up files'}], which carries no [deletedCount]; the
    expired files of [pre] have been deleted and stay deleted, and every
    other entry is as it was. *)
Theorem cleanup_not_atomic (rt : runtime) (w : world) (pre post : list jsstring)
        (d : jsstring) (e : entry) :
  entries (disk w) = pre ++ d :: post ->
  disk w !! d = Some e ->
  expired (clock rt 0%nat) e = true ->
  is_directory e = true ->
  (forall f e', f ∈ pre -> disk w !! f = Some e' ->
                expired (clock rt 0%nat) e' = true -> is_directory e' = false) ->
  exists w',
    cleanup rt w =
      (Ok {| status := 500; headers := [];
             body := ErrorBody (lit "Error cleaning up files") None None |}, w')
    /\ calls w' = calls w
    /\ (forall f, f ∈ pre -> expired_in (clock rt 0%nat) (disk w) f = true ->
                  is_Some (disk w !! f) /\ disk w' !! f = None)
    /\ (forall g, g ∉ pre \/ expired_in (clock rt 0%nat) (disk w) g = false ->
                  disk w' !! g = disk w !! g).
Proof.
  intros Hls Hd Hex Hdir Hpre.
  destruct (cleanup_try_run rt w pre (d :: post) Hls Hpre) as (m' & Hrun & Hlook).
  assert (Hnd : d ∉ pre).
  { pose proof (NoDup_entries (disk w)) as Hnd. rewrite Hls in Hnd.
    apply list.NoDup_app in Hnd as (_ & Hnd & _). intros Hin.
    apply (Hnd d Hin). left. }
  exists {| disk := m'; calls := calls w |}.
  split.
  { unfold cleanup, try_catch. rewrite Hrun.
    unfold bind at 1. cbn [forEach_file]. unfold bind at 1. unfold statSync.
    cbn [disk calls].
    rewrite Hlook, (bool_decide_eq_false_2 (d ∈ pre)) by exact Hnd.
    cbn [andb]. rewrite Hd, Hex.
    unfold bind at 1. unfold unlinkSync. cbn [disk calls].
    rewrite Hlook, (bool_decide_eq_false_2 (d ∈ pre)) by exact Hnd.
    cbn [andb]. rewrite Hd, Hdir. reflexivity. }
  split; [reflexivity|]. cbn [disk]. split.
  - intros f Hf Hexp. split.
    + unfold expired_in in Hexp. destruct (disk w !! f); [eauto|discriminate].
    + rewrite Hlook, (bool_decide_eq_true_2 (f ∈ pre)), Hexp by exact Hf. reflexivity.
  - intros g [Hg|Hg]; rewrite Hlook.
    + rewrite (bool_decide_eq_false_2 (g ∈ pre)) by exact Hg. reflexivity.
    + rewrite Hg, andb_false_r. reflexivity.
Qed.

Lemma cleanup_not_atomic_witness :
  exists w',
    cleanup (runtime_with None answering 1700000000000)
            {| disk := two_files_then_a_directory; calls := [] |}
    = (Ok (json 500 (ErrorBody (lit "Error cleaning up files") None None)), w')
    /\ is_Some (two_files_then_a_directory !! lit "old.mp3")
    /\ disk w' !! lit "old.mp3" = None.
Proof.
  destruct (cleanup_not_atomic
              (runtime_with None answering 1700000000000)
              {| disk := two_files_then_a_directory; calls := [] |}
              [lit "new.mp3"; lit "old.mp3"] [] (lit "tmp")
              {| mtime := 0; kind := Directory |})
    as (w' & Hrun & _ & Hgone & _).
  - vm_compute. reflexivity.
  - vm_compute. reflexivity.
  - reflexivity.
  - reflexivity.
  - intros f e' Hin Hlk. revert Hin. revert f e' Hlk.
    apply (bool_decide_eq_true_1
             (map_Forall (fun f e' => f ∈ [lit "new.mp3"; lit "old.mp3"] ->
                                      expired 1700000000000 e' = true ->
                                      is_directory e' = false)
                         two_files_then_a_directory)).
    vm_compute. reflexivity.
  - exists w'. split; [exact Hrun|].
    apply (Hgone (lit "old.mp3")).
    + apply (bool_decide_eq_true_1 _). vm_compute. reflexivity.
    + vm_compute. reflexivity.
Defined.

(** When the directory that cannot be unlinked is listed first, the route
    fails before it has deleted anything. *)
Example cleanup_fails_at_once :
  cleanup (runtime_with None answering 1700000000000)
          {| disk := two_files_and_a_directory; calls := [] |}
  = (Ok (json 500 (ErrorBody (lit "Error cleaning up files") None None)),
     {| disk := two_files_and_a_directory; calls := [] |}).
Proof. vm_compute. reflexivity. Qed.

(* ===================================================================== *)
(** ** Properties: GET /audio/:filename *)
(* ===================================================================== *)





(* ===================================================================== *)
(** ** Properties: the error taxonomy *)
(* ===================================================================== *)

Lemma strict_eq_string_true (v : jsvalue) (s : jsstring) :
  strict_eq_string v s = true <-> v = VStr s.
Proof.
  destruct v; simpl; try (split; [discriminate|intros [=]]).
  rewrite bool_decide_eq_true. split; [intros ->; reflexivity|intros [= ->]; reflexivity].
Qed.

Lemma strict_eq_string_false (v : jsvalue) (s : jsstring) :
  v <> VStr s -> strict_eq_string v s = false.
Proof.
  intros H. destruct (strict_eq_string v s) eqn:E; [|reflexivity].
  apply strict_eq_string_true in E. contradiction.
Qed.

(** A failure of the text-generation request is thrown by the try block. *)
Lemma chat_try_text_failure (rt : runtime) (req : chat_request) (w : world)
      (s : jsstring) (e : error) :
  prompt req = VStr s -> JsString.trim s <> [] ->
  chat_completions_create (openai rt)
    (chat_params_of (defaultSystemMessage (systemMessage req)) s) = Throw e ->
  exists w', chat_try rt req w = (Throw e, w').
Proof.
  intros Hp Hs He. rewrite (chat_try_valid rt req w s Hp Hs). cbv zeta.
  rewrite He. eauto.
Qed.

(** So is a failure of the speech request. *)
Lemma chat_try_speech_failure (rt : runtime) (req : chat_request) (w : world)
      (s : jsstring) (c : chat_completion) (text : option jsstring) (e : error) :
  prompt req = VStr s -> JsString.trim s <> [] ->
  chat_completions_create (openai rt)
    (chat_params_of (defaultSystemMessage (systemMessage req)) s) = Ok c ->
  first_content c = Ok text ->
  audio_speech_create (openai rt) (speech_params_of text) = Throw e ->
  exists w', chat_try rt req w = (Throw e, w').
Proof.
  intros Hp Hs Hc Hf He. rewrite (chat_try_valid rt req w s Hp Hs). cbv zeta.
  rewrite Hc, Hf, He. eauto.
Qed.

(** So is a failure to write the file: here the name is taken by a
    directory. *)
Lemma chat_try_write_failure (rt : runtime) (req : chat_request) (w : world)
      (s : jsstring) (c : chat_completion) (text : option jsstring)
      (speech : speech_response) (buffer : list Byte.byte) (d : entry) :
  prompt req = VStr s -> JsString.trim s <> [] ->
  chat_completions_create (openai rt)
    (chat_params_of (defaultSystemMessage (systemMessage req)) s) = Ok c ->
  first_content c = Ok text ->
  audio_speech_create (openai rt) (speech_params_of text) = Ok speech ->
  arrayBuffer speech = Ok buffer ->
  disk w !! audio_file_name (clock rt 0%nat) = Some d -> is_directory d = true ->
  exists w',
    chat_try rt req w = (Throw (SystemError "EISDIR" "illegal operation on a directory"), w').
Proof.
  intros Hp Hs Hc Hf Ha Hb Hd Hdir. rewrite (chat_try_valid rt req w s Hp Hs). cbv zeta.
  rewrite Hc, Hf, Ha, Hb. unfold writeFileSync. cbn [disk].
  rewrite Hd, Hdir. eauto.
Qed.

(** C5. When the try block of the chat route throws, the status of the
    answer is decided by the error thrown: 429 when its code is
    [insufficient_quota], 401 when it is [invalid_api_key], and 500 with
    the generic message and type [server_error] for anything else,
    whether it comes from the provider, the network or the file system;
    the detail of the error (its message) is part of the 500 only when
    NODE_ENV is [development], hence never in production. A request that passes the
    middleware and matches no route is answered 404 with the list of the
    five routes. *)
Theorem error_taxonomy :
  (forall (rt : runtime) (req : chat_request) (w w' : world) (e : error),
     chat_try rt req w = (Throw e, w') ->
     exists r,
       chat rt req w = (Ok r, w')
       /\ (code e = VStr (lit "insufficient_quota") -> status r = 429)
       /\ (code e = VStr (lit "invalid_api_key") -> status r = 401)
       /\ (code e <> VStr (lit "insufficient_quota") ->
           code e <> VStr (lit "invalid_api_key") ->
           exists details,
             r = {| status := 500; headers := [];
                    body := ErrorBody
                              (lit "Internal server error while processing your request")
                              (Some (lit "server_error")) details |}
             /\ details = (if bool_decide (NODE_ENV rt = Some (lit "development"))
                           then json_property (message e) else None)
             /\ (NODE_ENV rt = Some (lit "production") -> details = None)
             /\ (details <> None -> NODE_ENV rt = Some (lit "development"))))
  /\
  (forall (path_match : jsstring -> jsstring -> option (list (jsstring * jsstring)))
          (cors_middleware : request -> passed unit)
          (json_middleware : request -> passed chat_request)
          (static_middleware : request -> world -> passed unit)
          (rt : runtime) (req : request) (b : chat_request) (w : world),
     cors_middleware req = Next tt ->
     json_middleware req = Next b ->
     static_middleware req w = Next tt ->
     find_route path_match routes req = None ->
     app path_match cors_middleware json_middleware static_middleware rt req w =
       (Ok {| status := 404; headers := [];
              body := NotFoundBody (lit "Endpoint not found")
                        [ lit "GET /api/health"; lit "POST /api/chat";
                          lit "GET /audio/:filename"; lit "DELETE /api/cleanup";
                          lit "GET /api/config" ] |},
        w)).
Proof.
  split.
  - intros rt req w w' e Hthrow. unfold chat, try_catch. rewrite Hthrow.
    eexists. split; [reflexivity|]. unfold chat_catch.
    split; [|split].
    + intros Hq. apply strict_eq_string_true in Hq. rewrite Hq. reflexivity.
    + intros Ha.
      destruct (strict_eq_string (code e) (lit "insufficient_quota")) eqn:Hq.
      * apply strict_eq_string_true in Hq. rewrite Hq in Ha. discriminate Ha.
      * apply strict_eq_string_true in Ha. rewrite Ha. reflexivity.
    + intros Hq Ha.
      rewrite (strict_eq_string_false _ _ Hq), (strict_eq_string_false _ _ Ha).
      eexists. split; [reflexivity|]. split; [reflexivity|]. split.
      * intros Hprod. rewrite bool_decide_eq_false_2; [reflexivity|].
        rewrite Hprod. discriminate.
      * intros Hd. case_bool_decide; [assumption|contradiction].
  - intros path_match cors json static rt req b w Hc Hj Hs Hr.
    unfold app. rewrite Hc, Hj, Hs, Hr. reflexivity.
Qed.

Lemma error_taxonomy_witness :
  status <$> (match (chat (runtime_with (Some (lit "production")) (failing quota_exceeded) 0)
                          say_hello empty_world).1 with
              | Ok r => Some r | Throw _ => None end) = Some 429
  /\ status <$> (match (chat (runtime_with (Some (lit "production")) (failing bad_key) 0)
                             say_hello empty_world).1 with
                 | Ok r => Some r | Throw _ => None end) = Some 401
  /\ (match (chat (runtime_with (Some (lit "production")) (failing connection_reset) 0)
                  say_hello empty_world).1 with
      | Ok r => Some r | Throw _ => None end)
     = Some (json 500 (ErrorBody (lit "Internal server error while processing your request")
                                 (Some (lit "server_error")) None))
  /\ (app literal_match pass_on empty_body no_static_file
          (runtime_with None answering 0)
          {| req_method := GET; req_path := lit "/api/nothing"; req_raw_body := [] |}
          empty_world).1
     = Ok not_found.
Proof.
  destruct error_taxonomy as [Hchat Happ].
  split; [|split; [|split]].
  - destruct (Hchat (runtime_with (Some (lit "production")) (failing quota_exceeded) 0)
                    say_hello empty_world _ quota_exceeded eq_refl)
      as (r & -> & H429 & _).
    cbn [fst fmap option_fmap option_map]. f_equal. apply H429. reflexivity.
  - destruct (Hchat (runtime_with (Some (lit "production")) (failing bad_key) 0)
                    say_hello empty_world _ bad_key eq_refl)
      as (r & -> & _ & H401 & _).
    cbn [fst fmap option_fmap option_map]. f_equal. apply H401. reflexivity.
  - destruct (Hchat (runtime_with (Some (lit "production")) (failing connection_reset) 0)
                    say_hello empty_world _ connection_reset eq_refl)
      as (r & -> & _ & _ & H500).
    destruct H500 as (details & -> & _ & Hprod & _); [discriminate|discriminate|].
    cbn [fst]. rewrite (Hprod eq_refl). reflexivity.
  - rewrite (Happ literal_match pass_on empty_body no_static_file
                  (runtime_with None answering 0)
                  {| req_method := GET; req_path := lit "/api/nothing"; req_raw_body := [] |}
                  {| prompt := VUndefined; systemMessage := VUndefined |}
                  empty_world eq_refl eq_refl eq_refl eq_refl).
    reflexivity.
Defined.

(* ===================================================================== *)
(** ** Further properties: the life of an audio file *)
(* ===================================================================== *)

Lemma lit_cons (a : ascii) (s : string) : lit (String a s) = N_of_ascii a :: lit s.
Proof. reflexivity. Qed.

Lemma no_slash_uint (d : Decimal.uint) :
  forallb (fun c => negb (c =? 47)%N) (lit (NilEmpty.string_of_uint d)) = true.
Proof. induction d; simpl; auto. Qed.

Lemma no_slash_of_int (n : Z) :
  forallb (fun c => negb (c =? 47)%N) (JsString.of_int n) = true.
Proof.
  unfold JsString.of_int.
  assert (H : forall d, forallb (fun c => negb (c =? 47)%N)
                                (lit (NilZero.string_of_uint d)) = true).
  { intros d. unfold NilZero.string_of_uint.
    destruct d; try reflexivity; apply (no_slash_uint (_ _)). }
  destruct (Z.to_int n) as [d|d]; cbn [NilZero.string_of_int].
  - apply H.
  - rewrite lit_cons. cbn [forallb]. rewrite H. reflexivity.
Qed.

(** The name the chat route gives a file is the name of an entry of the
    audio directory: it has no [/] and is neither [.] nor [..]. *)
Lemma audio_file_name_is_entry_name (now : Z) : is_entry_name (audio_file_name now) = true.
Proof.
  unfold is_entry_name, audio_file_name.
  change (lit "response_") with (N_of_ascii "r" :: lit "esponse_").
  rewrite <- app_comm_cons.
  rewrite !bool_decide_eq_false_2 by discriminate.
  rewrite app_comm_cons, !forallb_app, no_slash_of_int. reflexivity.
Qed.

Lemma audio_of_file (filename : jsstring) (w : world) (t : Z) (content : list Byte.byte) :
  disk w !! filename = Some {| mtime := t; kind := File content |} ->
  audio filename w =
    (Ok {| status := 200;
           headers := [ (lit "Content-Type", lit "audio/mpeg");
                        (lit "Accept-Ranges", lit "bytes") ];
           body := Piped (Ok content) |}, w).
Proof.
  intros H. unfold audio, bind, existsSync, createReadStream, ret. cbv beta iota.
  rewrite bool_decide_eq_true_2 by (rewrite H; eauto).
  cbn [negb]. cbv beta iota. rewrite H. reflexivity.
Qed.

Lemma audio_of_nothing (filename : jsstring) (w : world) :
  disk w !! filename = None ->
  audio filename w = (Ok (json 404 (ErrorBody (lit "Audio file not found") None None)), w).
Proof.
  intros H. unfold audio, bind, existsSync, ret. cbv beta iota.
  rewrite bool_decide_eq_false_2 by (rewrite H; intros [? ?]; discriminate).
  reflexivity.
Qed.

(** X1. Write, then read. After a chat request answered 200, the
    [audioUrl] of the answer is [/audio/] followed by its [audioFileName],
    and GET /audio/<audioFileName> answers 200 and streams exactly the
    bytes the speech provider returned for the [textResponse]. *)
Theorem chat_then_audio (rt : runtime) (req : chat_request) (w w' : world) (r : response) :
  chat rt req w = (Ok r, w') -> status r = 200 ->
  exists cr speech buffer,
    body r = ChatBody cr /\
    audioUrl cr = lit "/audio/" ++ audioFileName cr /\
    audio_speech_create (openai rt) (speech_params_of (Some (textResponse cr))) = Ok speech /\
    arrayBuffer speech = Ok buffer /\
    audio (audioFileName cr) w' =
      (Ok {| status := 200;
             headers := [ (lit "Content-Type", lit "audio/mpeg");
                          (lit "Accept-Ranges", lit "bytes") ];
             body := Piped (Ok buffer) |}, w').
Proof.
  intros H Hst.
  destruct (chat_200_run _ _ _ _ _ H Hst)
    as (s & text & c & speech & buffer & _ & _ & _ & _ & Ha & Hb & -> & ->).
  eexists _, speech, buffer. split; [reflexivity|]. cbn [audioUrl audioFileName textResponse].
  split; [reflexivity|]. split; [exact Ha|]. split; [exact Hb|].
  apply (audio_of_file _ _ (clock rt 1%nat)). apply lookup_insert_eq.
Qed.

Lemma chat_then_audio_witness :
  exists w',
    (chat (runtime_with None answering 1700000000000) say_hello empty_world).2 = w' /\
    (audio (lit "response_1700000000000.mp3") w').1
      = Ok {| status := 200;
              headers := [ (lit "Content-Type", lit "audio/mpeg");
                           (lit "Accept-Ranges", lit "bytes") ];
              body := Piped (Ok [Byte.x49; Byte.x44; Byte.x33]) |}.
Proof.
  destruct (chat_then_audio (runtime_with None answering 1700000000000) say_hello
                            empty_world _ _ eq_refl eq_refl)
    as (cr & speech & buffer & Hbody & _ & Ha & Hb & Haudio).
  eexists. split; [reflexivity|].
  injection Hbody as <-. injection Ha as <-. injection Hb as <-.
  cbn [audioFileName] in Haudio.
  exact (f_equal fst Haudio).
Defined.

(** X2. The file of a chat request answered 200 is an entry of the audio
    directory: [readdirSync] lists it, so the cleanup route sees it. *)
Theorem chat_file_is_listed (rt : runtime) (req : chat_request) (w w' : world) (r : response) :
  chat rt req w = (Ok r, w') -> status r = 200 ->
  exists cr,
    body r = ChatBody cr /\
    is_entry_name (audioFileName cr) = true /\
    audioFileName cr ∈ entries (disk w').
Proof.
  intros H Hst.
  destruct (chat_200_run _ _ _ _ _ H Hst)
    as (s & text & c & speech & buffer & _ & _ & _ & _ & _ & _ & -> & ->).
  eexists. split; [reflexivity|]. cbn [audioFileName disk].
  split; [apply audio_file_name_is_entry_name|].
  apply entries_iff. split; [apply audio_file_name_is_entry_name|].
  rewrite lookup_insert_eq. eauto.
Qed.

Lemma chat_file_is_listed_witness :
  lit "response_1700000000000.mp3"
    ∈ entries (disk (chat (runtime_with None answering 1700000000000)
                           say_hello empty_world).2).
Proof.
  destruct (chat_file_is_listed (runtime_with None answering 1700000000000) say_hello
                                empty_world _ _ eq_refl eq_refl)
    as (cr & Hbody & _ & Hin).
  injection Hbody as <-. exact Hin.
Defined.

(* ===================================================================== *)
(** ** Further properties: what a chat request does and does not do *)
(* ===================================================================== *)

Lemma validate_none_iff (v : jsvalue) :
  validate v = Ok None <-> truthy v = false \/ blank v = true.
Proof.
  unfold validate. destruct (truthy v) eqn:Ht; cbn [negb].
  - destruct v; try (split; [discriminate|intros [?|?]; discriminate]).
    cbn [blank]. rewrite <- trim_nil_iff. case_bool_decide; split; auto.
    + discriminate.
    + intros [?|?]; [discriminate|contradiction].
  - split; auto.
Qed.

Lemma chat_catch_status (rt : runtime) (e : error) :
  status (chat_catch rt e) = 429 \/ status (chat_catch rt e) = 401
  \/ status (chat_catch rt e) = 500.
Proof.
  unfold chat_catch.
  destruct (strict_eq_string _ _); [now left|].
  destruct (strict_eq_string _ _); [right; now left|right; now right].
Qed.

(** What the try block leaves behind, whatever its outcome: at most the
    one file, at most the two requests. *)
Lemma chat_try_world (rt : runtime) (req : chat_request) (w : world) :
  (disk (chat_try rt req w).2 = disk w
   \/ exists buffer,
        disk (chat_try rt req w).2 =
          <[audio_file_name (clock rt 0%nat) :=
              {| mtime := clock rt 1%nat; kind := File buffer |}]> (disk w))
  /\ exists new,
       calls (chat_try rt req w).2 = calls w ++ new /\ (List.length new <= 2)%nat.
Proof.
  destruct (validate (prompt req)) as [[s|]|e] eqn:Hv.
  - apply validate_inv in Hv as [Hp Hs].
    rewrite (chat_try_valid rt req w s Hp Hs). cbv zeta.
    destruct (chat_completions_create _ _) as [c|e]; cbn [snd disk calls];
      [|split; [now left|eexists; split; [reflexivity|simpl; lia]]].
    destruct (first_content c) as [textResponse|e]; cbn [snd disk calls];
      [|split; [now left|eexists; split; [reflexivity|simpl; lia]]].
    destruct (audio_speech_create _ _) as [speech|e]; cbn [snd disk calls];
      [|split; [now left|rewrite <- app_assoc; eexists; split; [reflexivity|simpl; lia]]].
    destruct (arrayBuffer speech) as [buffer|e]; cbn [snd disk calls];
      [|split; [now left|rewrite <- app_assoc; eexists; split; [reflexivity|simpl; lia]]].
    match goal with
    | |- context [writeFileSync ?n ?b ?t ?w2] =>
        pose proof (writeFileSync_calls n b t w2) as Hcalls;
        destruct (writeFileSync n b t w2) as [[[]|e] w3] eqn:Hw
    end; cbn [snd disk calls] in *.
    + apply writeFileSync_inv in Hw. cbn [disk calls] in Hw.
      assert (Hd : disk w3 = <[audio_file_name (clock rt 0%nat) :=
                     {| mtime := clock rt 1%nat; kind := File buffer |}]> (disk w))
        by (rewrite Hw; reflexivity).
      destruct textResponse; cbn [snd];
        (split; [right; eauto|rewrite Hcalls, <- app_assoc;
                              eexists; split; [reflexivity|simpl; lia]]).
    + split.
      * left. unfold writeFileSync in Hw. cbn [disk calls] in Hw.
        destruct (disk w !! _) as [d|]; [|discriminate].
        destruct (is_directory d); [|discriminate]. now injection Hw as _ <-.
      * rewrite Hcalls, <- app_assoc. eexists; split; [reflexivity|simpl; lia].
  - unfold chat_try, bind, lift. rewrite Hv. cbn [snd].
    split; [now left|exists []; rewrite app_nil_r; split; [reflexivity|simpl; lia]].
  - unfold chat_try, bind, lift. rewrite Hv. cbn [snd].
    split; [now left|exists []; rewrite app_nil_r; split; [reflexivity|simpl; lia]].
Qed.

Lemma chat_snd (rt : runtime) (req : chat_request) (w : world) :
  (chat rt req w).2 = (chat_try rt req w).2.
Proof.
  unfold chat, try_catch. destruct (chat_try rt req w) as [[r|e] w']; reflexivity.
Qed.

(** X3. A chat request, whatever its outcome, touches no file but the one
    it names after the clock: every other path of the file system names
    afterwards what it named before (nothing is deleted, nothing else is
    written), and the log of provider requests only grows, by at most two
    requests. *)
Theorem chat_frame (rt : runtime) (req : chat_request) (w : world) :
  (forall name, name <> audio_file_name (clock rt 0%nat) ->
                disk (chat rt req w).2 !! name = disk w !! name)
  /\ exists new,
       calls (chat rt req w).2 = calls w ++ new /\ (List.length new <= 2)%nat.
Proof.
  rewrite chat_snd. destruct (chat_try_world rt req w) as [[Hd|[buffer Hd]] Hc].
  - split; [|exact Hc]. intros name _. now rewrite Hd.
  - split; [|exact Hc]. intros name Hne. rewrite Hd. now apply lookup_insert_ne.
Qed.

Lemma chat_frame_witness :
  disk (chat (runtime_with None answering 1700000000000) say_hello
             {| disk := two_files; calls := [] |}).2 !! lit "old.mp3"
  = two_files !! lit "old.mp3".
Proof.
  apply (proj1 (chat_frame (runtime_with None answering 1700000000000) say_hello
                           {| disk := two_files; calls := [] |}) (lit "old.mp3")).
  intros H. vm_compute in H. discriminate H.
Defined.

(** An answer made in the try block is the 400 of the validation or the
    200 of the end. *)
Lemma chat_try_ok_status (rt : runtime) (req : chat_request) (w w' : world) (r : response) :
  chat_try rt req w = (Ok r, w') -> status r = 200 \/ status r = 400.
Proof.
  intros Htry.
  destruct (validate (prompt req)) as [[s|]|e] eqn:Hv.
  - apply validate_inv in Hv as [Hp Hs].
    rewrite (chat_try_valid rt req w s Hp Hs) in Htry. cbv zeta in Htry.
    destruct (chat_completions_create _ _) as [c|e]; [|discriminate].
    destruct (first_content c) as [textResponse|e]; [|discriminate].
    destruct (audio_speech_create _ _) as [speech|e]; [|discriminate].
    destruct (arrayBuffer speech) as [buffer|e]; [|discriminate].
    destruct (writeFileSync _ _ _ _) as [[[]|e] w3]; [|discriminate].
    destruct textResponse as [text|]; [|discriminate].
    injection Htry as <- _. now left.
  - unfold chat_try, bind, lift in Htry. rewrite Hv in Htry.
    injection Htry as <- _. now right.
  - unfold chat_try, bind, lift in Htry. rewrite Hv in Htry. discriminate.
Qed.

(** X4. The chat route always answers: no exception leaves the handler,
    and the status of the answer is 200, 400, 401, 429 or 500. *)
Theorem chat_always_answers (rt : runtime) (req : chat_request) (w : world) :
  exists r,
    (chat rt req w).1 = Ok r
    /\ (status r = 200 \/ status r = 400 \/ status r = 401
        \/ status r = 429 \/ status r = 500).
Proof.
  unfold chat, try_catch.
  destruct (chat_try rt req w) as [[r|e] w'] eqn:Htry.
  - exists r. split; [reflexivity|].
    destruct (chat_try_ok_status _ _ _ _ _ Htry) as [H|H]; rewrite H; tauto.
  - exists (chat_catch rt e). split; [reflexivity|].
    destruct (chat_catch_status rt e) as [H|[H|H]]; rewrite H; tauto.
Qed.

(** X5. The chat route answers 400 exactly when the prompt is falsy
    ([undefined], [null], [false], [0], [NaN], the empty string) or a
    string of white space only; no failure of the provider or of the file
    system is ever reported as 400. *)
Theorem chat_400_iff (rt : runtime) (req : chat_request) (w : world) (r : response) :
  (chat rt req w).1 = Ok r ->
  (status r = 400 <-> truthy (prompt req) = false \/ blank (prompt req) = true).
Proof.
  intros H. rewrite <- validate_none_iff.
  unfold chat, try_catch in H.
  destruct (validate (prompt req)) as [[s|]|e] eqn:Hv.
  - split; [|discriminate]. intros Hst. exfalso.
    apply validate_inv in Hv as [Hp Hs].
    rewrite (chat_try_valid rt req w s Hp Hs) in H. cbv zeta in H.
    assert (Hcatch : forall e, status (chat_catch rt e) <> 400).
    { intros e. destruct (chat_catch_status rt e) as [E|[E|E]]; rewrite E; discriminate. }
    destruct (chat_completions_create _ _) as [c|e];
      [|injection H as <-; exact (Hcatch _ Hst)].
    destruct (first_content c) as [textResponse|e];
      [|injection H as <-; exact (Hcatch _ Hst)].
    destruct (audio_speech_create _ _) as [speech|e];
      [|injection H as <-; exact (Hcatch _ Hst)].
    destruct (arrayBuffer speech) as [buffer|e];
      [|injection H as <-; exact (Hcatch _ Hst)].
    destruct (writeFileSync _ _ _ _) as [[[]|e] w3];
      [|injection H as <-; exact (Hcatch _ Hst)].
    destruct textResponse as [text|];
      [|injection H as <-; exact (Hcatch _ Hst)].
    injection H as <-. discriminate Hst.
  - unfold chat_try, bind, lift in H. rewrite Hv in H. injection H as <-.
    split; reflexivity.
  - unfold chat_try, bind, lift in H. rewrite Hv in H. injection H as <-.
    split; [|discriminate]. intros Hst. exfalso.
    destruct (chat_catch_status rt e) as [E|[E|E]]; rewrite E in Hst; discriminate.
Qed.

Lemma chat_400_iff_witness :
  status <$> (match (chat (runtime_with None answering 1700000000000)
                          {| prompt := VBool false; systemMessage := VUndefined |}
                          empty_world).1 with
              | Ok r => Some r | Throw _ => None end) = Some 400.
Proof.
  exact (f_equal Some
           (proj2 (chat_400_iff (runtime_with None answering 1700000000000)
                                {| prompt := VBool false; systemMessage := VUndefined |}
                                empty_world
                                (json 400 (ErrorBody
                                             (lit "Prompt is required and cannot be empty")
                                             None None))
                                eq_refl)
                  (or_introl eq_refl))).
Defined.

(** X6. In a chat request answered 200 the provider was asked exactly
    twice: for a completion whose user message is the prompt as it was
    received (not trimmed), then for the speech of the very text that is
    answered as [textResponse]. [promptLength] and [responseLength] are the
    lengths of that prompt and of that text. *)
Theorem chat_success_calls (rt : runtime) (req : chat_request) (w w' : world) (r : response) :
  chat rt req w = (Ok r, w') -> status r = 200 ->
  exists s cr,
    prompt req = VStr s /\ body r = ChatBody cr /\
    new_calls w w' =
      [ ChatCompletionsCreate
          {| chat_model := lit "gpt-3.5-turbo";
             messages := [ {| role := lit "system";
                              content := defaultSystemMessage (systemMessage req) |};
                           {| role := lit "user"; content := VStr s |} ];
             max_tokens := 500;
             temperature := (7 # 10)%Q |};
        AudioSpeechCreate
          {| speech_model := lit "tts-1"; voice := lit "alloy";
             input := Some (textResponse cr); speed := (1 # 1)%Q |} ] /\
    promptLength cr = JsString.length s /\
    responseLength cr = JsString.length (textResponse cr).
Proof.
  intros H Hst.
  destruct (chat_200_run _ _ _ _ _ H Hst)
    as (s & text & c & speech & buffer & Hp & _ & _ & _ & _ & _ & -> & ->).
  exists s. eexists. split; [exact Hp|]. split; [reflexivity|].
  unfold new_calls. cbn [calls]. rewrite drop_app_length.
  repeat split.
Qed.

Lemma chat_success_calls_witness :
  exists cr,
    (chat (runtime_with None answering 1700000000000)
          {| prompt := VStr (lit "  hi  "); systemMessage := VUndefined |}
          empty_world).1 = Ok (json 200 (ChatBody cr))
    /\ promptLength cr = 6.
Proof.
  destruct (chat_success_calls
              (runtime_with None answering 1700000000000)
              {| prompt := VStr (lit "  hi  "); systemMessage := VUndefined |}
              empty_world _ _ eq_refl eq_refl)
    as (s & cr & Hp & Hbody & _ & Hlen & _).
  injection Hp as <-. injection Hbody as <-.
  eexists. split; [reflexivity|exact Hlen].
Defined.

(** X7. A completion without text leaves a file behind. When the first
    choice of the completion has [content: null] and the speech provider
    answers all the same, the audio file is written before
    [textResponse.length] throws: the request is answered 500 and the file
    stays in the audio directory. *)
Theorem chat_null_content_leaves_file (rt : runtime) (req : chat_request) (w : world)
        (s : jsstring) (c : chat_completion) (speech : speech_response)
        (buffer : list Byte.byte) :
  prompt req = VStr s -> JsString.trim s <> [] ->
  chat_completions_create (openai rt)
    (chat_params_of (defaultSystemMessage (systemMessage req)) s) = Ok c ->
  first_content c = Ok None ->
  audio_speech_create (openai rt) (speech_params_of None) = Ok speech ->
  arrayBuffer speech = Ok buffer ->
  (forall e, disk w !! audio_file_name (clock rt 0%nat) = Some e -> is_directory e = false) ->
  exists r w',
    chat rt req w = (Ok r, w')
    /\ status r = 500
    /\ disk w' !! audio_file_name (clock rt 0%nat)
       = Some {| mtime := clock rt 1%nat; kind := File buffer |}
    /\ audio_file_name (clock rt 0%nat) ∈ entries (disk w').
Proof.
  intros Hp Hs Hc Hf Ha Hb Hw. unfold chat, try_catch.
  rewrite (chat_try_valid rt req w s Hp Hs). cbv zeta.
  rewrite Hc, Hf, Ha, Hb, writeFileSync_ok by exact Hw.
  do 2 eexists. split; [reflexivity|]. cbn [disk].
  split; [reflexivity|].
  split; [apply lookup_insert_eq|].
  apply entries_iff. split; [apply audio_file_name_is_entry_name|].
  rewrite lookup_insert_eq. eauto.
Qed.

Lemma chat_null_content_leaves_file_witness :
  exists r w',
    chat (runtime_with None silent 1700000000000) say_hello empty_world = (Ok r, w')
    /\ status r = 500
    /\ disk w' !! lit "response_1700000000000.mp3"
       = Some {| mtime := 1700000000000; kind := File [Byte.x49; Byte.x44; Byte.x33] |}.
Proof.
  destruct (chat_null_content_leaves_file
              (runtime_with None silent 1700000000000) say_hello empty_world
              (lit "Say hello")
              {| choices := [ {| message_content := None |} ] |}
              {| arrayBuffer := Ok [Byte.x49; Byte.x44; Byte.x33] |}
              [Byte.x49; Byte.x44; Byte.x33] eq_refl)
    as (r & w' & Hrun & Hst & Hfile & _).
  - intros H. vm_compute in H. discriminate H.
  - reflexivity.
  - reflexivity.
  - reflexivity.
  - reflexivity.
  - intros e H. vm_compute in H. discriminate H.
  - exists r, w'. auto.
Defined.

(** X8. Two requests in one millisecond share one file. When a second chat
    request is answered 200 after a first one and both read the same
    millisecond, both answers carry the same [audioUrl], and that URL now
    serves the audio of the second request: the audio of the first is
    gone. *)
Theorem chat_same_millisecond_overwrites (rt1 rt2 : runtime) (req1 req2 : chat_request)
        (w w1 w2 : world) (r1 r2 : response) :
  chat rt1 req1 w = (Ok r1, w1) -> status r1 = 200 ->
  chat rt2 req2 w1 = (Ok r2, w2) -> status r2 = 200 ->
  clock rt1 0%nat = clock rt2 0%nat ->
  exists cr1 cr2 speech2 buffer2,
    body r1 = ChatBody cr1 /\ body r2 = ChatBody cr2 /\
    audioUrl cr1 = audioUrl cr2 /\
    audio_speech_create (openai rt2) (speech_params_of (Some (textResponse cr2))) = Ok speech2 /\
    arrayBuffer speech2 = Ok buffer2 /\
    audio (audioFileName cr1) w2 =
      (Ok {| status := 200;
             headers := [ (lit "Content-Type", lit "audio/mpeg");
                          (lit "Accept-Ranges", lit "bytes") ];
             body := Piped (Ok buffer2) |}, w2).
Proof.
  intros H1 S1 H2 S2 Hclock.
  destruct (chat_200_run _ _ _ _ _ H1 S1)
    as (s1 & t1 & c1 & sp1 & b1 & _ & _ & _ & _ & _ & _ & -> & ->).
  destruct (chat_200_run _ _ _ _ _ H2 S2)
    as (s2 & t2 & c2 & sp2 & b2 & _ & _ & _ & _ & Ha & Hb & -> & ->).
  eexists _, _, sp2, b2. split; [reflexivity|]. split; [reflexivity|].
  cbn [audioUrl audioFileName textResponse].
  split; [now rewrite Hclock|]. split; [exact Ha|]. split; [exact Hb|].
  apply (audio_of_file _ _ (clock rt2 1%nat)). cbn [disk].
  rewrite Hclock. apply lookup_insert_eq.
Qed.

Lemma chat_same_millisecond_overwrites_witness :
  exists w1 w2,
    (chat (runtime_with None answering 1700000000000) say_hello empty_world).2 = w1
    /\ (chat (runtime_with None answering 1700000000000)
             {| prompt := VStr (lit "Again"); systemMessage := VUndefined |} w1).2 = w2
    /\ (audio (lit "response_1700000000000.mp3") w2).1
       = Ok {| status := 200;
               headers := [ (lit "Content-Type", lit "audio/mpeg");
                            (lit "Accept-Ranges", lit "bytes") ];
               body := Piped (Ok [Byte.x49; Byte.x44; Byte.x33]) |}.
Proof.
  destruct (chat_same_millisecond_overwrites
              (runtime_with None answering 1700000000000)
              (runtime_with None answering 1700000000000)
              say_hello {| prompt := VStr (lit "Again"); systemMessage := VUndefined |}
              empty_world _ _ _ _ eq_refl eq_refl eq_refl eq_refl eq_refl)
    as (cr1 & cr2 & speech2 & buffer2 & Hb1 & _ & _ & Ha & Hb & Haudio).
  do 2 eexists. split; [reflexivity|]. split; [reflexivity|].
  injection Hb1 as <-. injection Ha as <-. injection Hb as <-.
  cbn [audioFileName] in Haudio.
  exact (f_equal fst Haudio).
Defined.

(* ===================================================================== *)
(** ** Further properties: cleanup, whatever happens *)
(* ===================================================================== *)

Lemma expired_iff (now : Z) (e : entry) :
  expired now e = true <-> now - mtime e > 3600000.
Proof.
  unfold expired, oneHour. change (60 * 60 * 1000) with 3600000.
  rewrite Z.gtb_lt. lia.
Qed.

(** The loop only ever unlinks, and only names of the listing that are
    expired files. *)
Lemma forEach_file_frame (now : Z) (files : list jsstring) :
  forall (n : Z) (w w' : world) (o : outcome Z),
    forEach_file now files n w = (o, w') ->
    calls w' = calls w
    /\ forall i,
         disk w' !! i = disk w !! i
         \/ (disk w' !! i = None
             /\ i ∈ files
             /\ exists e, disk w !! i = Some e /\ expired now e = true
                          /\ is_directory e = false).
Proof.
  induction files as [|f files IH]; intros n w w' o Hrun.
  - injection Hrun as _ <-. split; [reflexivity|]. intros i. now left.
  - cbn [forEach_file] in Hrun. unfold bind at 1 in Hrun. unfold statSync in Hrun.
    destruct (disk w !! f) as [e|] eqn:He;
      [|injection Hrun as _ <-; split; [reflexivity|intros i; now left]].
    destruct (expired now e) eqn:Hex.
    + unfold bind at 1 in Hrun. unfold unlinkSync in Hrun. rewrite He in Hrun.
      destruct (is_directory e) eqn:Hdir;
        [injection Hrun as _ <-; split; [reflexivity|intros i; now left]|].
      destruct (IH _ _ _ _ Hrun) as [Hc Hd]. cbn [disk calls] in Hc, Hd.
      split; [exact Hc|]. intros i.
      destruct (decide (i = f)) as [->|Hne].
      * right. split; [|split; [left|eauto]].
        destruct (Hd f) as [H|[H _]]; [|exact H].
        rewrite H. apply lookup_delete_eq.
      * destruct (Hd i) as [H|(H & Hin & e' & He' & Hex' & Hdir')].
        -- left. rewrite H. now apply lookup_delete_ne.
        -- right. split; [exact H|]. split; [now right|].
           exists e'. rewrite lookup_delete_ne in He' by congruence. auto.
    + destruct (IH _ _ _ _ Hrun) as [Hc Hd]. split; [exact Hc|]. intros i.
      destruct (Hd i) as [H|(H & Hin & Hrest)]; [now left|].
      right. split; [exact H|]. split; [now right|exact Hrest].
Qed.

(** X9. The cleanup route, whatever happens: it always answers, with 200
    or 500; it sends nothing to the provider; it creates and changes no
    file; and a path that names something before and nothing afterwards
    is an entry of the audio directory, a file, last modified more than
    3600000 ms before the clock reading. In particular a file of exactly
    one hour is kept. *)
Theorem cleanup_frame (rt : runtime) (w : world) :
  exists r,
    (cleanup rt w).1 = Ok r
    /\ (status r = 200 \/ status r = 500)
    /\ calls (cleanup rt w).2 = calls w
    /\ forall i,
         disk (cleanup rt w).2 !! i = disk w !! i
         \/ (disk (cleanup rt w).2 !! i = None
             /\ is_entry_name i = true
             /\ exists e, disk w !! i = Some e
                          /\ clock rt 0%nat - mtime e > 3600000
                          /\ is_directory e = false).
Proof.
  destruct (forEach_file (clock rt 0%nat) (entries (disk w)) 0 w) as [o w'] eqn:Hrun.
  destruct (forEach_file_frame _ _ _ _ _ _ Hrun) as [Hc Hd].
  assert (Hd' : forall i,
             disk w' !! i = disk w !! i
             \/ (disk w' !! i = None
                 /\ is_entry_name i = true
                 /\ exists e, disk w !! i = Some e
                              /\ clock rt 0%nat - mtime e > 3600000
                              /\ is_directory e = false)).
  { intros i. destruct (Hd i) as [H|(H & Hin & e & He & Hex & Hdir)]; [now left|].
    right. split; [exact H|]. apply entries_iff in Hin as [Hname _].
    split; [exact Hname|]. exists e. apply expired_iff in Hex. auto. }
  unfold cleanup, try_catch, cleanup_try. unfold bind at 1. unfold readdirSync.
  unfold bind, ret. rewrite Hrun.
  destruct o as [n|e]; cbn [fst snd]; eexists; (split; [reflexivity|]);
    cbn [status json]; auto.
Qed.

Lemma cleanup_frame_witness :
  is_Some (disk (cleanup (runtime_with None answering 1700000000000)
                         {| disk := two_files_and_a_directory; calls := [] |}).2
           !! lit "new.mp3").
Proof.
  destruct (cleanup_frame (runtime_with None answering 1700000000000)
                          {| disk := two_files_and_a_directory; calls := [] |})
    as (r & _ & _ & _ & Hd).
  destruct (Hd (lit "new.mp3")) as [H|(_ & _ & e & He & Hold & _)].
  - rewrite H. vm_compute. eauto.
  - exfalso. vm_compute in He. injection He as <-. vm_compute in Hold. discriminate Hold.
Defined.

(** The cleanup route on its success path, entry by entry. *)
Lemma cleanup_ok (rt : runtime) (w : world) :
  (forall f e, is_entry_name f = true -> disk w !! f = Some e ->
               expired (clock rt 0%nat) e = true -> is_directory e = false) ->
  exists n w',
    cleanup rt w =
      (Ok (json 200 (CleanupBody
                       (lit "Cleaned up " ++ JsString.of_int n ++ lit " old audio files") n)),
       w')
    /\ n = Z.of_nat (size (disk w)) - Z.of_nat (size (disk w'))
    /\ calls w' = calls w
    /\ forall i, disk w' !! i =
                  if stale (clock rt 0%nat) (disk w) i then None else disk w !! i.
Proof.
  intros Hfiles.
  destruct (cleanup_try_run rt w (entries (disk w)) []) as (m' & Hrun & Hlook).
  { now rewrite app_nil_r. }
  { intros f e Hf. apply Hfiles. now apply entries_iff in Hf as [Hf _]. }
  exists (Z.of_nat (size (disk w)) - Z.of_nat (size m')),
         {| disk := m'; calls := calls w |}.
  split; [unfold cleanup, try_catch; rewrite Hrun; reflexivity|].
  split; [reflexivity|]. split; [reflexivity|]. cbn [disk].
  intros i. rewrite Hlook. unfold stale, expired_in.
  destruct (disk w !! i) as [e|] eqn:Hi; [|now rewrite !andb_false_r].
  destruct (is_entry_name i) eqn:Hname.
  - rewrite bool_decide_eq_true_2; [reflexivity|]. apply entries_iff. rewrite Hi. eauto.
  - rewrite bool_decide_eq_false_2; [reflexivity|].
    rewrite entries_iff, Hname. intros [? _]. discriminate.
Qed.

(** What is not expired outlives the cleanup route, whatever its outcome. *)
Lemma cleanup_keeps (rt : runtime) (w : world) (i : jsstring) (e : entry) :
  disk w !! i = Some e -> expired (clock rt 0%nat) e = false ->
  disk (cleanup rt w).2 !! i = Some e.
Proof.
  intros Hi Hex.
  destruct (forEach_file (clock rt 0%nat) (entries (disk w)) 0 w) as [o w'] eqn:Hrun.
  destruct (forEach_file_frame _ _ _ _ _ _ Hrun) as [_ Hd].
  assert (Hw : (cleanup rt w).2 = w').
  { unfold cleanup, try_catch, cleanup_try. unfold bind at 1. unfold readdirSync.
    unfold bind, ret. rewrite Hrun. destruct o; reflexivity. }
  rewrite Hw. destruct (Hd i) as [H|(_ & _ & e' & He' & Hex' & _)].
  - now rewrite H.
  - rewrite Hi in He'. injection He' as <-. rewrite Hex in Hex'. discriminate.
Qed.

(** X10. Cleanup is idempotent. After a cleanup answered on its success
    path, a second cleanup at the same clock reading finds nothing to
    delete: it answers 200 with [deletedCount] 0 and the message
    [Cleaned up 0 old audio files], and leaves the world as it is. *)
Theorem cleanup_idempotent (rt : runtime) (w : world) :
  (forall f e, is_entry_name f = true -> disk w !! f = Some e ->
               expired (clock rt 0%nat) e = true -> is_directory e = false) ->
  exists r1 w1,
    cleanup rt w = (Ok r1, w1) /\ status r1 = 200 /\
    cleanup rt w1 =
      (Ok {| status := 200; headers := [];
             body := CleanupBody (lit "Cleaned up 0 old audio files") 0 |}, w1).
Proof.
  intros Hfiles.
  destruct (cleanup_ok rt w Hfiles) as (n1 & w1 & Hrun1 & _ & _ & Hlook1).
  assert (Hfresh : forall i, stale (clock rt 0%nat) (disk w1) i = false).
  { intros i. unfold stale, expired_in. rewrite Hlook1.
    destruct (stale (clock rt 0%nat) (disk w) i) eqn:Hst; [apply andb_false_r|].
    exact Hst. }
  destruct (cleanup_ok rt w1) as (n2 & w2 & Hrun2 & Hn2 & Hc2 & Hlook2).
  { intros f e Hname Hf Hex. exfalso.
    specialize (Hfresh f). unfold stale, expired_in in Hfresh.
    rewrite Hname, Hf, Hex in Hfresh. discriminate. }
  assert (w2 = w1) as ->.
  { destruct w1 as [m1 c1], w2 as [m2 c2]. cbn [disk calls] in *. f_equal; [|exact Hc2].
    apply map_eq. intros i. now rewrite Hlook2, Hfresh. }
  eexists _, w1. split; [exact Hrun1|]. split; [reflexivity|].
  rewrite Hrun2. replace n2 with 0 by lia. reflexivity.
Qed.

Lemma cleanup_idempotent_witness :
  exists w1,
    (cleanup (runtime_with None answering 1700000000000)
             {| disk := two_files; calls := [] |}).2 = w1
    /\ cleanup (runtime_with None answering 1700000000000) w1 =
         (Ok (json 200 (CleanupBody (lit "Cleaned up 0 old audio files") 0)), w1).
Proof.
  destruct (cleanup_idempotent (runtime_with None answering 1700000000000)
                               {| disk := two_files; calls := [] |})
    as (r1 & w1 & Hrun1 & _ & Hrun2).
  - intros f e _. revert f e.
    apply (bool_decide_eq_true_1
             (map_Forall (fun _ e => expired 1700000000000 e = true -> is_directory e = false)
                         two_files)).
    vm_compute. reflexivity.
  - exists w1. rewrite Hrun1. split; [reflexivity|exact Hrun2].
Defined.

(** X11. A fresh file outlives cleanup. The file of a chat request answered
    200 is still served, with the same bytes, after any run of the cleanup
    route, failed or not, whose clock reading is at most 3600000 ms after
    the time the file was written. *)
Theorem fresh_file_outlives_cleanup (rt rt2 : runtime) (req : chat_request)
        (w w1 : world) (r : response) :
  chat rt req w = (Ok r, w1) -> status r = 200 ->
  clock rt2 0%nat - clock rt 1%nat <= 3600000 ->
  exists cr buffer,
    body r = ChatBody cr /\
    audio (audioFileName cr) w1 =
      (Ok {| status := 200;
             headers := [ (lit "Content-Type", lit "audio/mpeg");
                          (lit "Accept-Ranges", lit "bytes") ];
             body := Piped (Ok buffer) |}, w1) /\
    audio (audioFileName cr) (cleanup rt2 w1).2 =
      (Ok {| status := 200;
             headers := [ (lit "Content-Type", lit "audio/mpeg");
                          (lit "Accept-Ranges", lit "bytes") ];
             body := Piped (Ok buffer) |}, (cleanup rt2 w1).2).
Proof.
  intros H Hst Hage.
  destruct (chat_200_run _ _ _ _ _ H Hst)
    as (s & text & c & speech & buffer & _ & _ & _ & _ & _ & _ & -> & ->).
  eexists _, buffer. split; [reflexivity|]. cbn [audioFileName].
  split.
  - apply (audio_of_file _ _ (clock rt 1%nat)). apply lookup_insert_eq.
  - apply (audio_of_file _ _ (clock rt 1%nat)).
    apply cleanup_keeps; [apply lookup_insert_eq|].
    destruct (expired _ _) eqn:E; [|reflexivity].
    apply expired_iff in E. cbn [mtime] in E. lia.
Qed.

Lemma fresh_file_outlives_cleanup_witness :
  (audio (lit "response_1700000000000.mp3")
         (cleanup (runtime_with None answering 1700003600000)
                  (chat (runtime_with None answering 1700000000000)
                        say_hello empty_world).2).2).1
  = Ok {| status := 200;
          headers := [ (lit "Content-Type", lit "audio/mpeg");
                       (lit "Accept-Ranges", lit "bytes") ];
          body := Piped (Ok [Byte.x49; Byte.x44; Byte.x33]) |}.
Proof.
  destruct (fresh_file_outlives_cleanup
              (runtime_with None answering 1700000000000)
              (runtime_with None answering 1700003600000)
              say_hello empty_world _ _ eq_refl eq_refl)
    as (cr & buffer & Hbody & Hbefore & Hafter).
  - vm_compute. discriminate.
  - injection Hbody as <-. cbn [audioFileName] in Hbefore, Hafter.
    assert (buffer = [Byte.x49; Byte.x44; Byte.x33]) as ->.
    { apply (f_equal fst) in Hbefore. cbn [fst] in Hbefore. vm_compute in Hbefore.
      now injection Hbefore as <-. }
    exact (f_equal fst Hafter).
Defined.

(** X12. A stale file is gone for good. When the cleanup route runs on its
    success path more than 3600000 ms after the file of a chat request was
    written, the [audioUrl] that request was answered with is answered 404
    from then on. *)
Theorem stale_file_is_gone (rt rt2 : runtime) (req : chat_request)
        (w w1 : world) (r : response) :
  chat rt req w = (Ok r, w1) -> status r = 200 ->
  clock rt2 0%nat - clock rt 1%nat > 3600000 ->
  (forall f e, is_entry_name f = true -> disk w1 !! f = Some e ->
               expired (clock rt2 0%nat) e = true -> is_directory e = false) ->
  exists cr r2 w2,
    body r = ChatBody cr /\
    cleanup rt2 w1 = (Ok r2, w2) /\ status r2 = 200 /\
    audio (audioFileName cr) w2 =
      (Ok {| status := 404; headers := [];
             body := ErrorBody (lit "Audio file not found") None None |}, w2).
Proof.
  intros H Hst Hage Hfiles.
  destruct (cleanup_ok rt2 w1 Hfiles) as (n & w2 & Hrun & _ & _ & Hlook).
  destruct (chat_200_run _ _ _ _ _ H Hst)
    as (s & text & c & speech & buffer & _ & _ & _ & _ & _ & _ & -> & Hw1).
  eexists _, _, w2. split; [reflexivity|]. split; [exact Hrun|]. split; [reflexivity|].
  cbn [audioFileName]. apply audio_of_nothing.
  rewrite Hlook. unfold stale, expired_in.
  rewrite audio_file_name_is_entry_name, Hw1. cbn [disk]. rewrite lookup_insert_eq.
  cbn [andb]. replace (expired _ _) with true; [reflexivity|].
  symmetry. apply expired_iff. cbn [mtime]. lia.
Qed.

Lemma stale_file_is_gone_witness :
  (audio (lit "response_1700000000000.mp3")
         (cleanup (runtime_with None answering 1700003600001)
                  (chat (runtime_with None answering 1700000000000)
                        say_hello empty_world).2).2).1
  = Ok (json 404 (ErrorBody (lit "Audio file not found") None None)).
Proof.
  destruct (stale_file_is_gone
              (runtime_with None answering 1700000000000)
              (runtime_with None answering 1700003600001)
              say_hello empty_world _ _ eq_refl eq_refl)
    as (cr & r2 & w2 & Hbody & Hrun & _ & Haudio).
  - vm_compute. reflexivity.
  - intros f e _. revert f e.
    apply (bool_decide_eq_true_1
             (map_Forall (fun _ e => expired 1700003600001 e = true -> is_directory e = false)
                         _)).
    vm_compute. reflexivity.
  - injection Hbody as <-. cbn [audioFileName] in Haudio.
    pose proof (f_equal snd Hrun
                : (cleanup (runtime_with None answering 1700003600001)
                           (chat (runtime_with None answering 1700000000000)
                                 say_hello empty_world).2).2 = w2) as E.
    rewrite E. exact (f_equal fst Haudio).
Defined.

(* ===================================================================== *)
(** ** Further properties: the application as a whole *)
(* ===================================================================== *)







(** X14. An error passed on by a middleware (a body that is not JSON, for
    one) is answered by the error-handling middleware, not by a route and
    not by the 404 handler: the answer is 500 with the body [{error:
    'Something went wrong!', type: 'unhandled_error'}], whatever the method
    and the path, and the world is untouched. *)
Theorem middleware_error_is_500
        (path_match : jsstring -> jsstring -> option (list (jsstring * jsstring)))
        (cors_middleware : request -> passed unit)
        (json_middleware : request -> passed chat_request)
        (static_middleware : request -> world -> passed unit)
        (rt : runtime) (req : request) (w : world) (e : error) :
  cors_middleware req = NextError e
  \/ (cors_middleware req = Next tt /\ json_middleware req = NextError e)
  \/ (cors_middleware req = Next tt /\ (exists b, json_middleware req = Next b)
      /\ static_middleware req w = NextError e) ->
  app path_match cors_middleware json_middleware static_middleware rt req w =
    (Ok {| status := 500; headers := [];
           body := ErrorBody (lit "Something went wrong!")
                             (Some (lit "unhandled_error")) None |}, w).
Proof.
  unfold app. intros [H|[[Hc H]|(Hc & [b Hj] & H)]].
  - rewrite H. reflexivity.
  - rewrite Hc, H. reflexivity.
  - rewrite Hc, Hj, H. reflexivity.
Qed.

Lemma middleware_error_is_500_witness :
  (app literal_match pass_on
       (fun _ => NextError (TypeError "Unexpected end of JSON input"))
       no_static_file
       (runtime_with None answering 1700000000000)
       {| req_method := POST; req_path := lit "/api/chat"; req_raw_body := [Byte.x7b] |}
       empty_world).1
  = Ok (json 500 (ErrorBody (lit "Something went wrong!")
                            (Some (lit "unhandled_error")) None)).
Proof.
  rewrite (middleware_error_is_500 literal_match pass_on
             (fun _ => NextError (TypeError "Unexpected end of JSON input"))
             no_static_file
             (runtime_with None answering 1700000000000)
             {| req_method := POST; req_path := lit "/api/chat"; req_raw_body := [Byte.x7b] |}
             empty_world (TypeError "Unexpected end of JSON input")).
  - reflexivity.
  - right. left. split; reflexivity.
Defined.

(** X15. With NODE_ENV unset or empty, GET /api/config reports the
    environment [development], yet the chat route does not behave as in
    development: its 500 carries no [details]. *)
Theorem unset_environment (rt : runtime) (w : world) (e : error) :
  NODE_ENV rt = None \/ NODE_ENV rt = Some [] ->
  code e <> VStr (lit "insufficient_quota") ->
  code e <> VStr (lit "invalid_api_key") ->
  (exists key, config rt w =
     (Ok {| status := 200; headers := [];
            body := ConfigBody (process_version rt) (lit "development") key
                               (dirname rt ++ lit "/public/audio") (clock rt 0%nat) |}, w))
  /\ chat_catch rt e =
       {| status := 500; headers := [];
          body := ErrorBody (lit "Internal server error while processing your request")
                            (Some (lit "server_error")) None |}.
Proof.
  intros Henv Hq Ha. split.
  - eexists. unfold config, ret, json, audioDirPath.
    destruct Henv as [-> | ->]; reflexivity.
  - unfold chat_catch.
    rewrite (strict_eq_string_false _ _ Hq), (strict_eq_string_false _ _ Ha).
    rewrite bool_decide_eq_false_2; [reflexivity|].
    destruct Henv as [-> | ->]; discriminate.
Qed.

Lemma unset_environment_witness :
  chat_catch (runtime_with None answering 1700000000000) connection_reset =
    json 500 (ErrorBody (lit "Internal server error while processing your request")
                        (Some (lit "server_error")) None).
Proof.
  apply (proj2 (unset_environment (runtime_with None answering 1700000000000)
                                  empty_world connection_reset
                                  (or_introl eq_refl)
                                  ltac:(discriminate) ltac:(discriminate))).
Defined.

(** X16. An answer 400, 401 or 429 of the chat route means that no file was
    written: the file system is exactly as it was before the request. (A
    500 gives no such guarantee.) *)
Theorem chat_client_error_writes_nothing (rt : runtime) (req : chat_request)
        (w w' : world) (r : response) :
  chat rt req w = (Ok r, w') ->
  status r = 400 \/ status r = 401 \/ status r = 429 ->
  disk w' = disk w.
Proof.
  unfold chat, try_catch. intros H Hst.
  destruct (validate (prompt req)) as [[s|]|e] eqn:Hv.
  - apply validate_inv in Hv as [Hp Hs].
    rewrite (chat_try_valid rt req w s Hp Hs) in H. cbv zeta in H.
    destruct (chat_completions_create _ _) as [c|e]; [|now injection H as _ <-].
    destruct (first_content c) as [textResponse|e]; [|now injection H as _ <-].
    destruct (audio_speech_create _ _) as [speech|e]; [|now injection H as _ <-].
    destruct (arrayBuffer speech) as [buffer|e]; [|now injection H as _ <-].
    unfold writeFileSync in H. cbn [disk calls] in H.
    assert (Hno200 : forall p, r = json 200 p -> False).
    { intros p ->. cbn [status json] in Hst. destruct Hst as [E|[E|E]]; discriminate E. }
    assert (Hno500 :
              r = chat_catch rt (TypeError "Cannot read properties of null (reading 'length')")
              -> False).
    { intros ->. unfold chat_catch, TypeError in Hst.
      cbn [code strict_eq_string status json] in Hst.
      destruct Hst as [E|[E|E]]; discriminate E. }
    destruct (disk w !! audio_file_name (clock rt 0%nat)) as [d|].
    + destruct (is_directory d).
      * now injection H as _ <-.
      * exfalso. destruct textResponse as [text|]; unfold ret, throw in H;
          injection H as H1 _; [eapply Hno200|apply Hno500]; eauto.
    + exfalso. destruct textResponse as [text|]; unfold ret, throw in H;
        injection H as H1 _; [eapply Hno200|apply Hno500]; eauto.
  - unfold chat_try, bind, lift in H. rewrite Hv in H. now injection H as _ <-.
  - unfold chat_try, bind, lift in H. rewrite Hv in H. now injection H as _ <-.
Qed.

Lemma chat_client_error_writes_nothing_witness :
  disk (chat (runtime_with None (failing quota_exceeded) 1700000000000) say_hello
             {| disk := two_files; calls := [] |}).2 = two_files.
Proof.
  apply (chat_client_error_writes_nothing
           (runtime_with None (failing quota_exceeded) 1700000000000) say_hello
           {| disk := two_files; calls := [] |} _ _ eq_refl).
  right. right. reflexivity.
Defined.
